(** * openai_fdw: the schema-driven validation and coercion pipeline

    A shallow embedding of [src/openai_fdw.py] (class
    [OpenAIForeignDataWrapper]) and the properties of its row validator,
    row converter, response extractor and orchestrator.

    Conventions.
    - A Python [str] is a Rocq [string]; each character stands for the code
      point of the same number (U+0000 to U+00FF).
    - A Python [int] is a [Z]; a Python [float] is an IEEE binary64 value,
      [spec_float] with precision 53 and maximal exponent 1024.
    - A Python [dict] is an association list in insertion order; a list that
      represents a dict has no repeated key, and lookup takes the first
      binding.
    - The values [json.loads] produces and the values the converter stores
      live in one type, [pyval], as they do in Python. *)

From Stdlib Require Import ZArith List String Ascii Bool Arith Lia.
From Stdlib Require Import Floats.SpecFloat.
From Stdlib Require DecimalString.
Import ListNotations.

Local Open Scope string_scope.
Local Open Scope list_scope.

(** ** Python values *)

#[warnings="-register-all"]
Inductive pyval : Type :=
| PNone
| PBool (b : bool)
| PInt (z : Z)
| PFloat (f : spec_float)
| PStr (s : string)
| PList (l : list pyval)
| PDict (d : list (string * pyval)).

(** The exception classes the program can meet.  [HTTPError] is a subclass
    of [RequestException]; every class below derives from [Exception].
    [ConfigurationError] stands for the fatal report of a missing option
    at setup. *)
Inductive exn : Type :=
| ConfigurationError
| RequestException
| HTTPError
| JSONDecodeError
| KeyError
| TypeError
| AttributeError
| IndexError
| ValueError
| OverflowError.

Definition is_RequestException (e : exn) : bool :=
  match e with
  | RequestException | HTTPError => true
  | _ => false
  end.

Definition is_JSONDecodeError (e : exn) : bool :=
  match e with
  | JSONDecodeError => true
  | _ => false
  end.

Inductive result (A : Type) : Type :=
| Ok (a : A)
| Raise (e : exn).

Arguments Ok {A} a.
Arguments Raise {A} e.

Definition rbind {A B} (r : result A) (k : A -> result B) : result B :=
  match r with
  | Ok a => k a
  | Raise e => Raise e
  end.

Declare Scope result_scope.
Delimit Scope result_scope with result.
Notation "x <- r ;; k" := (rbind r (fun x => k))
  (at level 61, r at next level, right associativity) : result_scope.

(** ** Dictionaries *)

Module Dict.

Definition t (V : Type) : Type := list (string * V).

Fixpoint get {V} (k : string) (d : t V) : option V :=
  match d with
  | [] => None
  | (k', v) :: d' => if String.eqb k k' then Some v else get k d'
  end.

Definition mem {V} (k : string) (d : t V) : bool :=
  match get k d with
  | Some _ => true
  | None => false
  end.

(** [d[k] = v]: an existing key keeps its position, a new key goes last. *)
Fixpoint set {V} (k : string) (v : V) (d : t V) : t V :=
  match d with
  | [] => [(k, v)]
  | (k', v') :: d' =>
      if String.eqb k k' then (k', v) :: d' else (k', v') :: set k v d'
  end.

Definition keys {V} (d : t V) : list string := map fst d.

End Dict.

(** ** Strings: [lower], [strip], [startswith], [endswith], slices *)

Definition between (lo hi n : nat) : bool := (lo <=? n)%nat && (n <=? hi)%nat.

(** [str.lower] on one character: A-Z and the capital letters of U+00C0 to
    U+00DE (the multiplication sign U+00D7 apart) move up by 32. *)
Definition lower_char (c : ascii) : ascii :=
  let n := nat_of_ascii c in
  if between 65 90 n then ascii_of_nat (n + 32)
  else if between 192 222 n && negb (n =? 215)%nat then ascii_of_nat (n + 32)
  else c.

Fixpoint lower (s : string) : string :=
  match s with
  | EmptyString => EmptyString
  | String c s' => String (lower_char c) (lower s')
  end.

(** The characters [str.strip] removes: U+0009 to U+000D, U+001C to U+0020,
    U+0085 and U+00A0. *)
Definition is_space (c : ascii) : bool :=
  let n := nat_of_ascii c in
  between 9 13 n || between 28 32 n || (n =? 133)%nat || (n =? 160)%nat.

Fixpoint lstrip (s : string) : string :=
  match s with
  | EmptyString => EmptyString
  | String c s' => if is_space c then lstrip s' else s
  end.

Fixpoint rstrip (s : string) : string :=
  match s with
  | EmptyString => EmptyString
  | String c s' =>
      match rstrip s' with
      | EmptyString => if is_space c then EmptyString else String c EmptyString
      | r => String c r
      end
  end.

Definition strip (s : string) : string := rstrip (lstrip s).

Definition startswith (p s : string) : bool := String.prefix p s.

(** [s[n:]] *)
Fixpoint drop (n : nat) (s : string) : string :=
  match n, s with
  | O, _ => s
  | S n', String _ s' => drop n' s'
  | S _, EmptyString => EmptyString
  end.

(** [s[:n]] for [n >= 0] *)
Fixpoint take (n : nat) (s : string) : string :=
  match n, s with
  | S n', String c s' => String c (take n' s')
  | _, _ => EmptyString
  end.

Definition endswith (p s : string) : bool :=
  String.eqb (drop (String.length s - String.length p) s) p
  && (String.length p <=? String.length s)%nat.

(** [s[:-n]] for [n > 0] *)
Definition drop_last (n : nat) (s : string) : string :=
  take (String.length s - n) s.

(** [p in s] for two strings *)
Fixpoint substringb (p s : string) : bool :=
  String.prefix p s
  || match s with
     | EmptyString => false
     | String _ s' => substringb p s'
     end.

(** ** Built-in operations on values *)

(** Truth value, as [not x] and [bool(x)] compute it. *)
Definition truthy (v : pyval) : bool :=
  match v with
  | PNone => false
  | PBool b => b
  | PInt z => negb (z =? 0)%Z
  | PFloat f => match f with S754_zero _ => false | _ => true end
  | PStr s => negb (String.eqb s "")
  | PList l => match l with [] => false | _ => true end
  | PDict d => match d with [] => false | _ => true end
  end.

(** [isinstance(value, int)]: [bool] is a subclass of [int]. *)
Definition isinstance_int (v : pyval) : bool :=
  match v with
  | PInt _ | PBool _ => true
  | _ => false
  end.

(** [isinstance(value, (int, float))] *)
Definition isinstance_int_float (v : pyval) : bool :=
  match v with
  | PInt _ | PBool _ | PFloat _ => true
  | _ => false
  end.

Definition isinstance_bool (v : pyval) : bool :=
  match v with
  | PBool _ => true
  | _ => false
  end.

Definition isinstance_str (v : pyval) : bool :=
  match v with
  | PStr _ => true
  | _ => false
  end.

(** [k in v] for a string [k] *)
Definition py_contains (k : string) (v : pyval) : result bool :=
  match v with
  | PDict d => Ok (Dict.mem k d)
  | PList l =>
      Ok (existsb (fun x => match x with
                            | PStr s => String.eqb s k
                            | _ => false
                            end) l)
  | PStr s => Ok (substringb k s)
  | _ => Raise TypeError
  end.

(** [v[k]] for a string [k] *)
Definition py_getitem (k : string) (v : pyval) : result pyval :=
  match v with
  | PDict d =>
      match Dict.get k d with
      | Some x => Ok x
      | None => Raise KeyError
      end
  | _ => Raise TypeError
  end.

(** [v[0]]; a dict decoded from JSON has string keys only. *)
Definition py_getitem0 (v : pyval) : result pyval :=
  match v with
  | PList (x :: _) => Ok x
  | PList [] => Raise IndexError
  | PStr (String c _) => Ok (PStr (String c EmptyString))
  | PStr EmptyString => Raise IndexError
  | PDict _ => Raise KeyError
  | _ => Raise TypeError
  end.

(** [float(z)] for an int: rounded to the nearest binary64 value, ties to
    even; [OverflowError] when the rounded value is not finite. *)
Definition float_of_int (z : Z) : result spec_float :=
  match binary_normalize 53 1024 z 0 false with
  | S754_infinity _ => Raise OverflowError
  | f => Ok f
  end.

(** [int(f)] for a float: truncation towards zero. *)
Definition int_of_float (f : spec_float) : result Z :=
  match f with
  | S754_zero _ => Ok 0%Z
  | S754_infinity _ => Raise OverflowError
  | S754_nan => Raise ValueError
  | S754_finite s m e => Ok (cond_Zopp s (Z.shiftl (Zpos m) e))
  end.

(** ** The declared types *)

Record column_def : Type := { type_name : string }.

Definition integer_types : list string :=
  ["integer"; "int4"; "int8"; "bigint"; "smallint"].
Definition float_types : list string :=
  ["real"; "float4"; "float8"; "double precision"; "numeric"; "decimal"].
Definition boolean_types : list string := ["boolean"; "bool"].
Definition text_types : list string :=
  ["text"; "varchar"; "char"; "date"; "timestamp"; "timestamptz"].

(** [s in [...]] for a list of strings *)
Definition str_in (s : string) (l : list string) : bool :=
  existsb (String.eqb s) l.

(** ** The row validator, [_validate_row_schema] *)

(** The body of the loop: the check on one present value. *)
Definition value_conforms (pg_type : string) (value : pyval) : bool :=
  if str_in pg_type integer_types then isinstance_int value
  else if str_in pg_type float_types then isinstance_int_float value
  else if str_in pg_type boolean_types then isinstance_bool value
  else if str_in pg_type text_types then isinstance_str value
  else true.

(** [for column_name, column_def in self.columns.items()], with its early
    [return False]. *)
Fixpoint validate_columns (columns : Dict.t column_def)
    (row_data : Dict.t pyval) : bool :=
  match columns with
  | [] => true
  | (column_name, column_def) :: rest =>
      match Dict.get column_name row_data with
      | Some value =>
          let pg_type := lower (type_name column_def) in
          if value_conforms pg_type value then validate_columns rest row_data
          else false
      | None => validate_columns rest row_data
      end
  end.

Definition validate_row (columns : Dict.t column_def) (row_data : pyval)
    : bool :=
  match row_data with
  | PDict d => validate_columns columns d
  | _ => false
  end.

(** ** The runtime outside the repository

    What the program calls but does not define: [json.loads], [int] and
    [float] on a string, [repr], the rendering of the instruction text
    ([json.dumps] and the f-string around it) and the HTTP transport.  The
    development is parametric in them. *)

Record request : Type := {
  url : string;
  headers : Dict.t string;
  payload_model : string;
  payload_messages : list (string * string);
  payload_max_tokens : Z;
  payload_temperature : spec_float;
  timeout : Z
}.

(** What the single POST of one invocation comes to. *)
Inductive http_outcome : Type :=
| PostRaises (e : exn)          (* [requests.post] raised *)
| StatusRaises                  (* [raise_for_status] raised [HTTPError] *)
| JsonRaises (e : exn)          (* [response.json()] raised *)
| Envelope (res : pyval).       (* [response.json()] returned *)

Record runtime : Type := {
  json_loads : string -> result pyval;
  int_of_str : string -> result Z;
  float_of_str : string -> result spec_float;
  py_repr : pyval -> string;
  render_instruction : Dict.t string -> Z -> string;
  requests_post : request -> http_outcome
}.

(** ** The wrapper object and the diagnostics sink *)

Record wrapper : Type := {
  api_key : option string;
  prompt : option string;
  model : string;
  max_tokens : Z;
  temperature : spec_float;
  max_rows : Z;
  columns : Dict.t column_def;
  column_names : list string;
  _response_cache : option pyval
}.

Inductive level : Type := DEBUG | INFO | WARNING | ERROR.

(** One constructor per [log_to_postgres] call site, with the values its
    message interpolates. *)
Inductive message : Type :=
| MsgApiKeyRequired
| MsgPromptRequired
| MsgInitialized (model : string)
| MsgNoData
| MsgSkippingInvalidRow (row_data : pyval)
| MsgExecutionError (e : exn)
| MsgMakingRequest (model : string)
| MsgNoChoices
| MsgExpectedArray (data : pyval)
| MsgParsedRows (n : nat)
| MsgParseFailed (e : exn) (content : string)
| MsgRequestFailed (e : exn)
| MsgUnexpected (e : exn).

Definition event : Type := (message * level)%type.

(** The state one call runs in: the object, the sink, and the rows the
    generator has yielded so far. *)
Record world : Type := {
  self : wrapper;
  sink : list event;
  yielded : list (Dict.t pyval)
}.

(** Methods: state passing with exceptions.  The state at the point of a
    [raise] is kept. *)
Definition M (A : Type) : Type := world -> result A * world.

Definition ret {A} (a : A) : M A := fun w => (Ok a, w).

Definition raise {A} (e : exn) : M A := fun w => (Raise e, w).

Definition bind {A B} (m : M A) (k : A -> M B) : M B :=
  fun w =>
    match m w with
    | (Ok a, w') => k a w'
    | (Raise e, w') => (Raise e, w')
    end.

Declare Scope M_scope.
Delimit Scope M_scope with M.
Notation "x <- m ;; k" := (bind m (fun x => k))
  (at level 61, m at next level, right associativity) : M_scope.
Notation "m ;;; k" := (bind m (fun _ => k))
  (at level 61, right associativity) : M_scope.

Definition lift {A} (r : result A) : M A := fun w => (r, w).

(** [try: body except C1 as e: h1 e except C2 as e: h2 e ...]: the first
    clause whose class test accepts the exception handles it; an exception
    no clause accepts, or one a handler raises, goes on to the caller. *)
Fixpoint find_handler {A} (clauses : list ((exn -> bool) * (exn -> M A)))
    (e : exn) : option (M A) :=
  match clauses with
  | [] => None
  | (catches, handler) :: rest =>
      if catches e then Some (handler e) else find_handler rest e
  end.

Definition try_except {A} (body : M A)
    (clauses : list ((exn -> bool) * (exn -> M A))) : M A :=
  fun w =>
    match body w with
    | (Ok a, w') => (Ok a, w')
    | (Raise e, w') =>
        match find_handler clauses e with
        | Some h => h w'
        | None => (Raise e, w')
        end
    end.

(** Reading an attribute of [self]. *)
Definition attr {A} (f : wrapper -> A) : M A := fun w => (Ok (f (self w)), w).

(** Modelled from the spec: [log_to_postgres] is defined by Multicorn, not
    by the repository; the spec has it report the event to the diagnostics
    sink and return. *)
Definition log_to_postgres (msg : message) (lvl : level) : M unit :=
  fun w =>
    (Ok tt, {| self := self w;
               sink := sink w ++ [(msg, lvl)];
               yielded := yielded w |}).

(** [yield row] *)
Definition yield (row : Dict.t pyval) : M unit :=
  fun w =>
    (Ok tt, {| self := self w;
               sink := sink w;
               yielded := yielded w ++ [row] |}).

Definition any_Exception (e : exn) : bool := true.

Section Program.

Variable rt : runtime.

(** *** Conversions by the built-in constructors *)

Definition py_int (value : pyval) : result Z :=
  match value with
  | PBool b => Ok (if b then 1 else 0)%Z
  | PInt z => Ok z
  | PFloat f => int_of_float f
  | PStr s => int_of_str rt s
  | _ => Raise TypeError
  end.

Definition py_float (value : pyval) : result spec_float :=
  match value with
  | PBool b => float_of_int (if b then 1 else 0)
  | PInt z => float_of_int z
  | PFloat f => Ok f
  | PStr s => float_of_str rt s
  | _ => Raise TypeError
  end.

Definition py_str (value : pyval) : string :=
  match value with
  | PStr s => s
  | _ => py_repr rt value
  end.

Definition str_of_option (o : option string) : string :=
  match o with
  | Some s => s
  | None => "None"
  end.

(** *** [__init__] *)

Definition option_falsy (o : option string) : bool :=
  match o with
  | Some s => String.eqb s ""
  | None => true
  end.

Definition get_default (k : string) (options : Dict.t string)
    (default : string) : string :=
  match Dict.get k options with
  | Some s => s
  | None => default
  end.

(** Modelled from the spec: what [log_to_postgres(..., ERROR)] does to the
    construction is decided by Multicorn, which is not in the repository; the
    spec makes a missing credential or prompt a Configuration Error,
    reported at setup and fatal for the whole session.  The event is
    recorded and the construction ends there. *)
Definition report_configuration_error (msg : message) (log : list event)
    : result wrapper * list event :=
  (Raise ConfigurationError, log ++ [(msg, ERROR)]).

Definition __init__ (options : Dict.t string) (columns : Dict.t column_def)
    (log : list event) : result wrapper * list event :=
  let api_key := Dict.get "api_key" options in
  if option_falsy api_key then
    report_configuration_error MsgApiKeyRequired log
  else
  let prompt := Dict.get "prompt" options in
  if option_falsy prompt then
    report_configuration_error MsgPromptRequired log
  else
  let model := get_default "model" options "gpt-3.5-turbo" in
  match int_of_str rt (get_default "max_tokens" options "2000") with
  | Raise e => (Raise e, log)
  | Ok max_tokens =>
  match float_of_str rt (get_default "temperature" options "0.7") with
  | Raise e => (Raise e, log)
  | Ok temperature =>
  match int_of_str rt (get_default "max_rows" options "100") with
  | Raise e => (Raise e, log)
  | Ok max_rows =>
      (Ok {| api_key := api_key;
             prompt := prompt;
             model := model;
             max_tokens := max_tokens;
             temperature := temperature;
             max_rows := max_rows;
             columns := columns;
             column_names := Dict.keys columns;
             _response_cache := None |},
       log ++ [(MsgInitialized model, DEBUG)])
  end end end.

(** *** [_generate_schema_info] *)

Definition json_type_hint (pg_type : string) : string :=
  if str_in pg_type integer_types then "number (integer)"
  else if str_in pg_type float_types then "number (float)"
  else if str_in pg_type boolean_types then "boolean"
  else if str_in pg_type ["date"] then "string (YYYY-MM-DD format)"
  else if str_in pg_type ["timestamp"; "timestamptz"]
       then "string (ISO 8601 format)"
  else "string".

Fixpoint schema_obj_of (columns : Dict.t column_def)
    (schema_obj : Dict.t string) : Dict.t string :=
  match columns with
  | [] => schema_obj
  | (column_name, column_def) :: rest =>
      let pg_type := lower (type_name column_def) in
      schema_obj_of rest
        (Dict.set column_name (json_type_hint pg_type) schema_obj)
  end.

Definition _generate_schema_info : M string :=
  (cols <- attr columns ;;
   cap <- attr max_rows ;;
   ret (render_instruction rt (schema_obj_of cols []) cap))%M.

(** *** [_validate_row_schema] *)

Definition _validate_row_schema (row_data : pyval) : M bool :=
  (cols <- attr columns ;;
   ret (validate_row cols row_data))%M.

(** *** [_convert_row_to_postgres_format] *)

(** The coercion of one present, non-null value. *)
Definition convert_value (pg_type : string) (value : pyval)
    : result pyval :=
  if str_in pg_type integer_types then
    (z <- py_int value ;; Ok (PInt z))%result
  else if str_in pg_type float_types then
    (f <- py_float value ;; Ok (PFloat f))%result
  else if str_in pg_type boolean_types then
    Ok (PBool (truthy value))
  else
    Ok (PStr (py_str value)).

Definition is_None (v : pyval) : bool :=
  match v with
  | PNone => true
  | _ => false
  end.

(** [for column_name in self.column_names], building [converted_row]. *)
Fixpoint convert_columns (columns : Dict.t column_def)
    (names : list string) (row_data : pyval)
    (converted_row : Dict.t pyval) : result (Dict.t pyval) :=
  match names with
  | [] => Ok converted_row
  | column_name :: rest =>
      (present <- py_contains column_name row_data ;;
       if present : bool then
         value <- py_getitem column_name row_data ;;
         if is_None value then
           convert_columns columns rest row_data
             (Dict.set column_name PNone converted_row)
         else
           column_def <- match Dict.get column_name columns with
                         | Some cd => Ok cd
                         | None => Raise KeyError
                         end ;;
           let pg_type := lower (type_name column_def) in
           v <- convert_value pg_type value ;;
           convert_columns columns rest row_data
             (Dict.set column_name v converted_row)
       else
         convert_columns columns rest row_data
           (Dict.set column_name PNone converted_row))%result
  end.

Definition convert_row (columns : Dict.t column_def)
    (names : list string) (row_data : pyval) : result (Dict.t pyval) :=
  convert_columns columns names row_data [].

Definition _convert_row_to_postgres_format (row_data : pyval)
    : M (Dict.t pyval) :=
  (cols <- attr columns ;;
   names <- attr column_names ;;
   lift (convert_row cols names row_data))%M.

(** *** [_make_openai_request] *)

Definition newline : string := String "010" EmptyString.

Definition system_content : string :=
  "You are a data generator. Always return valid JSON arrays matching the requested schema exactly. Never include explanatory text.".

Definition build_request (w : wrapper) (schema_info : string) : request :=
  let full_prompt :=
    (str_of_option (prompt w) ++ newline ++ newline ++ schema_info)%string in
  {| url := "https://api.openai.com/v1/chat/completions";
     headers :=
       [("Authorization", ("Bearer " ++ str_of_option (api_key w))%string);
        ("Content-Type", "application/json")];
     payload_model := model w;
     payload_messages :=
       [("system", system_content); ("user", full_prompt)];
     payload_max_tokens := max_tokens w;
     payload_temperature := temperature w;
     timeout := 60 |}.

(** [requests.post(...)], [response.raise_for_status()] and
    [response.json()]. *)
Definition send (req : request) : result pyval :=
  match requests_post rt req with
  | PostRaises e => Raise e
  | StatusRaises => Raise HTTPError
  | JsonRaises e => Raise e
  | Envelope res => Ok res
  end.

(** [v.strip()]: only a string has the method. *)
Definition strip_method (v : pyval) : result string :=
  match v with
  | PStr s => Ok (strip s)
  | _ => Raise AttributeError
  end.

(** [result['choices'][0]['message']['content'].strip()] *)
Definition completion_text (res : pyval) : result string :=
  (choices <- py_getitem "choices" res ;;
   choice <- py_getitem0 choices ;;
   msg <- py_getitem "message" choice ;;
   content <- py_getitem "content" msg ;;
   strip_method content)%result.

(** The two conditional slices and the second [strip]. *)
Definition strip_code_fence (content : string) : string :=
  let content :=
    if startswith "```json" content then drop 7 content else content in
  let content :=
    if endswith "```" content then drop_last 3 content else content in
  strip content.

(** The inner [try ... except json.JSONDecodeError]. *)
Definition parse_content (content : string)
    : M (option (list pyval)) :=
  let content := strip_code_fence content in
  try_except
    (data <- lift (json_loads rt content) ;;
     match data with
     | PList rows =>
         log_to_postgres (MsgParsedRows (List.length rows)) INFO ;;;
         ret (Some rows)
     | _ =>
         log_to_postgres (MsgExpectedArray data) ERROR ;;;
         ret None
     end)%M
    [(is_JSONDecodeError,
      fun e => (log_to_postgres (MsgParseFailed e content) ERROR ;;;
                ret None)%M)].

(** [if 'choices' not in result or not result['choices']] *)
Definition no_choices (res : pyval) : result bool :=
  (present <- py_contains "choices" res ;;
   if negb present then Ok true
   else choices <- py_getitem "choices" res ;;
        Ok (negb (truthy choices)))%result.

Definition _make_openai_request (schema_info : string)
    : M (option (list pyval)) :=
  (w <- attr (fun w => w) ;;
   let req := build_request w schema_info in
   try_except
     (log_to_postgres (MsgMakingRequest (model w)) DEBUG ;;;
      res <- lift (send req) ;;
      none <- lift (no_choices res) ;;
      if none : bool then
        log_to_postgres MsgNoChoices ERROR ;;;
        ret None
      else
        content <- lift (completion_text res) ;;
        parse_content content)
     [(is_RequestException,
       fun e => log_to_postgres (MsgRequestFailed e) ERROR ;;; ret None);
      (any_Exception,
       fun e => log_to_postgres (MsgUnexpected e) ERROR ;;; ret None)])%M.

(** *** [execute] *)

(** [for row_data in response_data] *)
Fixpoint emit_rows (response_data : list pyval) : M unit :=
  match response_data with
  | [] => ret tt
  | row_data :: rest =>
      (ok <- _validate_row_schema row_data ;;
       (if ok : bool then
          row <- _convert_row_to_postgres_format row_data ;;
          yield row
        else
          log_to_postgres (MsgSkippingInvalidRow row_data) WARNING) ;;;
       emit_rows rest)%M
  end.

(** [quals] and [columns] are the host's predicate list and requested
    column set; the method does not read them. *)
Definition execute (quals : list pyval) (columns : list string) : M unit :=
  try_except
    (schema_info <- _generate_schema_info ;;
     response_data <- _make_openai_request schema_info ;;
     match response_data with
     | None | Some [] => log_to_postgres MsgNoData WARNING
     | Some rows => emit_rows rows
     end)%M
    [(any_Exception,
      fun e => (log_to_postgres (MsgExecutionError e) ERROR ;;;
                raise e)%M)].

(** One invocation on a fresh sink. *)
Definition run_execute (w : wrapper) (quals : list pyval)
    (columns : list string) : result unit * world :=
  execute quals columns {| self := w; sink := []; yielded := [] |}.

End Program.

(** ** Specification-side definitions *)

(** What the converter stores for one column of a dict row: the loop body
    of [_convert_row_to_postgres_format] as a function of the column. *)
Definition convert_column (rt : runtime) (columns : Dict.t column_def)
    (row : Dict.t pyval) (column_name : string) : result pyval :=
  match Dict.get column_name row with
  | None => Ok PNone
  | Some value =>
      if is_None value then Ok PNone
      else
        match Dict.get column_name columns with
        | Some column_def =>
            convert_value rt (lower (type_name column_def)) value
        | None => Raise KeyError
        end
  end.

(** The declared type names the validator knows. *)
Definition recognized (pg_type : string) : bool :=
  str_in pg_type integer_types || str_in pg_type float_types
  || str_in pg_type boolean_types || str_in pg_type text_types.

(** The runtime type a stored value has for a declared type: exact integer,
    float, boolean, or string for every other type. *)
Definition has_declared_type (pg_type : string) (v : pyval) : Prop :=
  if str_in pg_type integer_types then exists z, v = PInt z
  else if str_in pg_type float_types then exists f, v = PFloat f
  else if str_in pg_type boolean_types then exists b, v = PBool b
  else exists s, v = PStr s.

(** The request one invocation of [execute] sends. *)
Definition request_of (rt : runtime) (w : wrapper) : request :=
  build_request w
    (render_instruction rt (schema_obj_of (columns w) []) (max_rows w)).

(** The failures of one invocation: the transport raises, the envelope has
    no completion text at [choices[0].message.content], the completion text
    does not parse, or it parses to something that is not an array. *)
Inductive invocation_fails (rt : runtime) (req : request) : Prop :=
| Transport_post_raises e :
    requests_post rt req = PostRaises e -> invocation_fails rt req
| Transport_status_raises :
    requests_post rt req = StatusRaises -> invocation_fails rt req
| Transport_body_raises e :
    requests_post rt req = JsonRaises e -> invocation_fails rt req
| Envelope_lacks_completion res :
    requests_post rt req = Envelope res ->
    (forall s, completion_text res <> Ok s) ->
    invocation_fails rt req
| Completion_not_parseable res s e :
    requests_post rt req = Envelope res ->
    completion_text res = Ok s ->
    json_loads rt (strip_code_fence s) = Raise e ->
    invocation_fails rt req
| Completion_not_array res s v :
    requests_post rt req = Envelope res ->
    completion_text res = Ok s ->
    json_loads rt (strip_code_fence s) = Ok v ->
    (forall rows, v <> PList rows) ->
    invocation_fails rt req.

(** The extractor's text transformation as the specification words it,
    with the opening marker stripped together with whatever language tag
    follows it. *)
Definition is_tag_char (c : ascii) : bool :=
  let n := nat_of_ascii c in
  between 48 57 n || between 65 90 n || between 97 122 n.

Fixpoint skip_tag (s : string) : string :=
  match s with
  | EmptyString => EmptyString
  | String c s' => if is_tag_char c then skip_tag s' else s
  end.

Definition strip_opening_any_tag (s : string) : string :=
  if startswith "```" s then
    match drop 3 s with
    | String c rest => if is_tag_char c then skip_tag rest else s
    | EmptyString => s
    end
  else s.

Definition strip_closing (s : string) : string :=
  if endswith "```" s then drop_last 3 s else s.

Definition extract_text_any_tag (raw : string) : string :=
  strip (strip_closing (strip_opening_any_tag (strip raw))).

(** The extractor in the amended words, as relations on texts.  The
    opening goes when the text is the seven characters of the marker and
    [json] followed by a rest, and then the rest stays, whatever it begins
    with; a text of no such form stays whole. *)
Definition opening_removed (t u : string) : Prop :=
  (exists rest, t = ("```json" ++ rest)%string /\ u = rest)
  \/ ((forall rest, t <> ("```json" ++ rest)%string) /\ u = t).

(** The closing marker goes when the text is a body followed by it. *)
Definition closing_removed (u v : string) : Prop :=
  (exists body, u = (body ++ "```")%string /\ v = body)
  \/ ((forall body, u <> (body ++ "```")%string) /\ v = u).

(** Trim, remove the opening, remove the closing, trim again. *)
Definition extracts_to (raw text : string) : Prop :=
  exists u v,
    opening_removed (strip raw) u /\ closing_removed u v /\ text = strip v.

(** What the extractor makes of the parser's answer on a text: the rows
    of an array, nothing for any other value or a text that does not
    parse, and any other exception left to the enclosing handler. *)
Definition parsed_rows (rt : runtime) (text : string)
    : result (option (list pyval)) :=
  match json_loads rt text with
  | Ok (PList rows) => Ok (Some rows)
  | Ok _ => Ok None
  | Raise e => if is_JSONDecodeError e then Ok None else Raise e
  end.

(** A fenced code block: the opening marker with its language tag, the
    body on lines of its own, the closing marker. *)
Definition fenced (tag body : string) : string :=
  ("```" ++ tag ++ newline ++ body ++ newline ++ "```")%string.

(** A method leaves the object as it found it. *)
Definition preserves_self {A} (m : M A) : Prop :=
  forall wd : world, self (snd (m wd)) = self wd.

(** ** Concrete inputs *)

Module Demo.

(** A runtime that decodes two texts and whose transport fails. *)
Definition rt : runtime :=
  {| json_loads := fun s =>
       if String.eqb s "[]" then Ok (PList [])
       else if String.eqb s "[1, 2]" then Ok (PList [PInt 1; PInt 2])
       else Raise JSONDecodeError;
     int_of_str := fun _ => Raise ValueError;
     float_of_str := fun _ => Raise ValueError;
     py_repr := fun _ => "<repr>";
     render_instruction := fun _ _ => "<instruction>";
     requests_post := fun _ => PostRaises RequestException |}.

Definition wrapper_of (columns : Dict.t column_def) : wrapper :=
  {| api_key := Some "sk-demo";
     prompt := Some "List two people";
     model := "gpt-3.5-turbo";
     max_tokens := 2000;
     temperature := S754_finite false 6305039478318694 (-53);
     max_rows := 100;
     columns := columns;
     column_names := Dict.keys columns;
     _response_cache := None |}.

Definition fresh (w : wrapper) : world :=
  {| self := w; sink := []; yielded := [] |}.

Definition people : Dict.t column_def :=
  [("id", {| type_name := "integer" |});
   ("name", {| type_name := "text" |})].

Definition active : Dict.t column_def :=
  [("active", {| type_name := "boolean" |})].

Definition a_integer : Dict.t column_def :=
  [("a", {| type_name := "integer" |})].

Definition a_float : Dict.t column_def :=
  [("a", {| type_name := "float8" |})].

(** 3.5 *)
Definition three_and_a_half : spec_float :=
  S754_finite false 7881299347898368 (-51).

(** The envelope of a completion whose text is [content]. *)
Definition envelope_of (content : string) : pyval :=
  PDict [("choices",
          PList [PDict [("index", PInt 0);
                        ("message",
                         PDict [("role", PStr "assistant");
                                ("content", PStr content)])]])].

(** A runtime whose transport answers with the completion [content] and
    whose decoder knows the one text [text], the text of [rows]. *)
Definition rt_answering (content text : string) (rows : list pyval)
    : runtime :=
  {| json_loads := fun s =>
       if String.eqb s text then Ok (PList rows) else Raise JSONDecodeError;
     int_of_str := fun _ => Raise ValueError;
     float_of_str := fun _ => Raise ValueError;
     py_repr := fun _ => "<repr>";
     render_instruction := fun _ _ => "<instruction>";
     requests_post := fun _ => Envelope (envelope_of content) |}.

Definition dq : string := String "034" EmptyString.

(** The text [[{"id":1,"name":"Ann"},{"id":"x","name":"Bo"}]] *)
Definition scenario_A_text : string :=
  ("[{" ++ dq ++ "id" ++ dq ++ ":1," ++ dq ++ "name" ++ dq ++ ":"
   ++ dq ++ "Ann" ++ dq ++ "},{" ++ dq ++ "id" ++ dq ++ ":" ++ dq ++ "x"
   ++ dq ++ "," ++ dq ++ "name" ++ dq ++ ":" ++ dq ++ "Bo" ++ dq
   ++ "}]")%string.

Definition scenario_A_rows : list pyval :=
  [PDict [("id", PInt 1); ("name", PStr "Ann")];
   PDict [("id", PStr "x"); ("name", PStr "Bo")]].

(** The text [[{"active": true}, {}]] *)
Definition scenario_C_text : string :=
  ("[{" ++ dq ++ "active" ++ dq ++ ": true}, {}]")%string.

Definition scenario_C_rows : list pyval :=
  [PDict [("active", PBool true)]; PDict []].

End Demo.

(** ** The rest of the wrapper: [can_sort] and [explain] *)

(** [can_sort]: no sort key is handled. *)
Definition can_sort (sortkeys : list pyval) : M (list pyval) := ret [].

(** [str(z)] for an int: decimal digits, with a minus sign when negative. *)
Definition str_of_int (z : Z) : string :=
  DecimalString.NilZero.string_of_int (Z.to_int z).

(** [sep.join(l)] *)
Fixpoint join (sep : string) (l : list string) : string :=
  match l with
  | [] => EmptyString
  | [x] => x
  | x :: rest => (x ++ sep ++ join sep rest)%string
  end.

(** [len(self.prompt)]: [None] has no length. *)
Definition len_of_option (o : option string) : result nat :=
  match o with
  | Some s => Ok (String.length s)
  | None => Raise TypeError
  end.

(** [explain]: the four lines of the plan, built in order. *)
Definition explain (quals : list pyval) (columns : list string)
    : M (list string) :=
  (w <- attr (fun w => w) ;;
   let line_model := ("OpenAI API call to model: " ++ model w)%string in
   n <- lift (len_of_option (prompt w)) ;;
   let line_prompt :=
     if (100 <? n)%nat
     then ("Prompt: " ++ take 100 (str_of_option (prompt w)) ++ "...")%string
     else ("Prompt: " ++ str_of_option (prompt w))%string in
   let line_columns :=
     ("Expected columns: " ++ join ", " (column_names w))%string in
   let line_rows := ("Max rows: " ++ str_of_int (max_rows w))%string in
   ret [line_model; line_prompt; line_columns; line_rows])%M.

(** ** More specification-side definitions *)

(** The six type hints the instruction can name. *)
Definition type_hints : list string :=
  ["number (integer)"; "number (float)"; "boolean";
   "string (YYYY-MM-DD format)"; "string (ISO 8601 format)"; "string"].

(** The JSON values a type hint asks the model for. *)
Definition hint_allows (hint : string) (v : pyval) : bool :=
  if String.eqb hint "number (integer)" then
    match v with PInt _ => true | _ => false end
  else if String.eqb hint "number (float)" then
    match v with PInt _ | PFloat _ => true | _ => false end
  else if String.eqb hint "boolean" then isinstance_bool v
  else isinstance_str v.

(** The event [execute] logs for a row it skips. *)
Definition skip_event (row_data : pyval) : event :=
  (MsgSkippingInvalidRow row_data, WARNING).

(** A string neither begins nor ends with a character [strip] removes. *)
Definition first_not_space (s : string) : Prop :=
  match s with
  | EmptyString => True
  | String c _ => is_space c = false
  end.

(** The documented shape of an envelope with a completion text. *)
Definition well_formed_envelope (res : pyval) (content : string) : Prop :=
  exists d rest choice msg,
    res = PDict d
    /\ Dict.get "choices" d = Some (PList (PDict choice :: rest))
    /\ Dict.get "message" choice = Some (PDict msg)
    /\ Dict.get "content" msg = Some (PStr content).

Module Cases.

Definition big_rows : list pyval :=
  [PDict [("a", PFloat Demo.three_and_a_half)];
   PDict [("a", PStr "n/a")];
   PDict [("a", PInt (10 ^ 400))];
   PDict [("a", PInt 2)]].

Definition rt_big : runtime :=
  Demo.rt_answering "[rows]" "[rows]" big_rows.

Definition mixed_columns : Dict.t column_def :=
  [("id", {| type_name := "BIGINT" |});
   ("score", {| type_name := "numeric" |});
   ("ok", {| type_name := "bool" |});
   ("born", {| type_name := "date" |});
   ("seen", {| type_name := "TimestampTZ" |});
   ("tags", {| type_name := "jsonb" |})].

End Cases.

(** * Properties *)

(** ** Dictionaries *)

Lemma get_app {V} (k : string) (d1 d2 : Dict.t V) :
  Dict.get k (d1 ++ d2) =
  match Dict.get k d1 with
  | Some v => Some v
  | None => Dict.get k d2
  end.
Proof.
  induction d1 as [|[k' v'] d1 IH]; simpl; [reflexivity|].
  destruct (String.eqb k k'); [reflexivity | exact IH].
Qed.

Lemma get_None_iff {V} (k : string) (d : Dict.t V) :
  Dict.get k d = None <-> ~ In k (Dict.keys d).
Proof.
  induction d as [|[k' v'] d IH]; simpl.
  - tauto.
  - destruct (String.eqb_spec k k') as [->|Hne].
    + split; [discriminate | intros H; exfalso; apply H; now left].
    + rewrite IH. split.
      * intros H [E|I]; [apply Hne; now symmetry | now apply H].
      * intros H I. apply H. now right.
Qed.

Lemma get_Some_In {V} (k : string) (v : V) (d : Dict.t V) :
  Dict.get k d = Some v -> In (k, v) d.
Proof.
  induction d as [|[k' v'] d IH]; simpl; [discriminate|].
  destruct (String.eqb_spec k k') as [->|Hne].
  - intros [= ->]. now left.
  - intros H. right. now apply IH.
Qed.

Lemma In_get_Some {V} (k : string) (v : V) (d : Dict.t V) :
  NoDup (Dict.keys d) -> In (k, v) d -> Dict.get k d = Some v.
Proof.
  induction d as [|[k' v'] d IH]; simpl; [tauto|].
  intros Hnd [E|I].
  - injection E as -> ->. now rewrite String.eqb_refl.
  - inversion Hnd as [|? ? Hnotin Hnd']; subst.
    destruct (String.eqb_spec k k') as [->|Hne].
    + exfalso. apply Hnotin. change (In k' (map fst d)).
      apply in_map_iff. exists (k', v). auto.
    + now apply IH.
Qed.

Lemma set_fresh {V} (k : string) (v : V) (d : Dict.t V) :
  ~ In k (Dict.keys d) -> Dict.set k v d = d ++ [(k, v)].
Proof.
  induction d as [|[k' v'] d IH]; simpl; [reflexivity|].
  intros H. destruct (String.eqb_spec k k') as [->|Hne].
  - exfalso. apply H. now left.
  - rewrite IH; [reflexivity|]. intros I. apply H. now right.
Qed.

Lemma get_set_same {V} (k : string) (v : V) (d : Dict.t V) :
  Dict.get k (Dict.set k v d) = Some v.
Proof.
  induction d as [|[k' v'] d IH]; simpl.
  - now rewrite String.eqb_refl.
  - destruct (String.eqb_spec k k') as [->|Hne]; simpl.
    + now rewrite String.eqb_refl.
    + destruct (String.eqb_spec k k'); [contradiction | exact IH].
Qed.

Lemma get_set_other {V} (k k0 : string) (v : V) (d : Dict.t V) :
  k <> k0 -> Dict.get k (Dict.set k0 v d) = Dict.get k d.
Proof.
  intros Hne. induction d as [|[k' v'] d IH]; simpl.
  - destruct (String.eqb_spec k k0); [contradiction | reflexivity].
  - destruct (String.eqb_spec k0 k') as [->|Hne']; simpl.
    + destruct (String.eqb_spec k k'); [contradiction | reflexivity].
    + destruct (String.eqb_spec k k'); [reflexivity | exact IH].
Qed.

Lemma keys_app {V} (d1 d2 : Dict.t V) :
  Dict.keys (d1 ++ d2) = Dict.keys d1 ++ Dict.keys d2.
Proof. apply map_app. Qed.

Lemma keys_combine {V} (names : list string) (vs : list V) :
  List.length names = List.length vs ->
  Dict.keys (combine names vs) = names.
Proof.
  revert vs. induction names as [|n names IH]; intros [|v vs]; simpl;
    try discriminate; [reflexivity|].
  intros [= H]. f_equal. now apply IH.
Qed.

Lemma Forall2_combine_get {V} (R : string -> V -> Prop)
    (names : list string) (vs : list V) (c : string) :
  Forall2 R names vs -> In c names ->
  exists v, Dict.get c (combine names vs) = Some v /\ In (c, v) (combine names vs).
Proof.
  induction 1 as [|n v names vs Hnv HF IH]; simpl; [tauto|].
  intros Hin. destruct (String.eqb_spec c n) as [->|Hne].
  - exists v. auto.
  - destruct Hin as [E|Hin]; [congruence|].
    destruct (IH Hin) as (v' & Hget & Hin'). exists v'. auto.
Qed.

Lemma Forall2_combine_In {V} (R : string -> V -> Prop)
    (names : list string) (vs : list V) (c : string) (v : V) :
  Forall2 R names vs -> In (c, v) (combine names vs) -> R c v /\ In c names.
Proof.
  induction 1 as [|n v' names vs Hnv HF IH]; simpl; [tauto|].
  intros [E|Hin].
  - injection E as -> ->. auto.
  - destruct (IH Hin). auto.
Qed.

Lemma Forall2_of_combine {V} (R : string -> V -> Prop)
    (names : list string) (vs : list V) :
  List.length names = List.length vs ->
  (forall c v, In (c, v) (combine names vs) -> R c v) ->
  Forall2 R names vs.
Proof.
  revert vs. induction names as [|n names IH]; intros [|v vs]; simpl;
    try discriminate; [constructor|].
  intros [= Hlen] H. constructor; [apply H; now left|].
  apply IH; [assumption|]. intros c v' Hin. apply H. now right.
Qed.

(** ** The values the converter stores *)

Section Values.

Variable rt : runtime.

Lemma convert_value_typed (pg_type : string) (value v : pyval) :
  convert_value rt pg_type value = Ok v -> has_declared_type pg_type v.
Proof.
  unfold convert_value, has_declared_type.
  destruct (str_in pg_type integer_types).
  { destruct (py_int rt value); simpl; [|discriminate].
    intros [= <-]. eauto. }
  destruct (str_in pg_type float_types).
  { destruct (py_float rt value); simpl; [|discriminate].
    intros [= <-]. eauto. }
  destruct (str_in pg_type boolean_types); intros [= <-]; eauto.
Qed.

Lemma typed_not_None (pg_type : string) (v : pyval) :
  has_declared_type pg_type v -> is_None v = false.
Proof.
  unfold has_declared_type.
  destruct (str_in pg_type integer_types); [intros [? ->]; reflexivity|].
  destruct (str_in pg_type float_types); [intros [? ->]; reflexivity|].
  destruct (str_in pg_type boolean_types); intros [? ->]; reflexivity.
Qed.

(** A stored value passes the validator's check for its own column and is
    left as it is by a second coercion. *)
Lemma typed_conforms_and_fixed (pg_type : string) (v : pyval) :
  has_declared_type pg_type v ->
  value_conforms pg_type v = true /\ convert_value rt pg_type v = Ok v.
Proof.
  unfold has_declared_type, value_conforms, convert_value.
  destruct (str_in pg_type integer_types); [intros [? ->]; auto|].
  destruct (str_in pg_type float_types); [intros [? ->]; auto|].
  destruct (str_in pg_type boolean_types); [intros [? ->]; auto|].
  intros [? ->]. destruct (str_in pg_type text_types); auto.
Qed.

(** A value that passed the validator's check is coerced without an
    exception, unless it is an integer beyond the binary64 range in a
    float-declared column. *)
Lemma conforming_value_converts (pg_type : string) (value : pyval) :
  value_conforms pg_type value = true ->
  (forall z, str_in pg_type integer_types = false ->
             str_in pg_type float_types = true ->
             value = PInt z -> exists f, float_of_int z = Ok f) ->
  exists v, convert_value rt pg_type value = Ok v.
Proof.
  unfold value_conforms, convert_value. intros Hok Hfit.
  destruct (str_in pg_type integer_types).
  { destruct value; try discriminate; simpl; eauto. }
  destruct (str_in pg_type float_types).
  { destruct value as [| b | z | f | | |]; try discriminate; simpl.
    - destruct b; eexists; reflexivity.
    - destruct (Hfit z eq_refl eq_refl eq_refl) as [f ->]. simpl. eauto.
    - eauto. }
  destruct (str_in pg_type boolean_types); eauto.
Qed.

End Values.

(** ** The converter on a dict row *)

Section Converter.

Variable rt : runtime.
Variable columns : Dict.t column_def.
Variable row : Dict.t pyval.

Lemma convert_columns_step (c : string) (names : list string)
    (acc : Dict.t pyval) :
  convert_columns rt columns (c :: names) (PDict row) acc =
  (v <- convert_column rt columns row c ;;
   convert_columns rt columns names (PDict row) (Dict.set c v acc))%result.
Proof.
  simpl. unfold convert_column, Dict.mem.
  destruct (Dict.get c row) as [value|]; simpl; [|reflexivity].
  destruct (is_None value); simpl; [reflexivity|].
  destruct (Dict.get c columns); reflexivity.
Qed.

Lemma convert_columns_spec (names : list string) :
  NoDup names ->
  forall (acc out : Dict.t pyval),
  (forall c, In c names -> ~ In c (Dict.keys acc)) ->
  (convert_columns rt columns names (PDict row) acc = Ok out <->
   exists vs,
     Forall2 (fun c v => convert_column rt columns row c = Ok v) names vs
     /\ out = acc ++ combine names vs).
Proof.
  induction 1 as [|c names Hnotin Hnd IH]; intros acc out Hfresh.
  - simpl. split.
    + intros [= <-]. exists []. split; [constructor | now rewrite app_nil_r].
    + intros (vs & HF & ->). inversion HF; subst. simpl.
      now rewrite app_nil_r.
  - rewrite convert_columns_step.
    destruct (convert_column rt columns row c) as [v|e] eqn:Hc; simpl.
    + rewrite set_fresh by (apply Hfresh; now left).
      rewrite IH.
      * split.
        -- intros (vs & HF & ->). exists (v :: vs). split.
           ++ now constructor.
           ++ now rewrite <- app_assoc.
        -- intros (vs & HF & ->). inversion HF as [|? v' ? vs' Hv HF']; subst.
           assert (v' = v) by congruence. subst v'.
           exists vs'. split; [assumption | now rewrite <- app_assoc].
      * intros c' Hin. rewrite keys_app. simpl. intros Hin'.
        apply in_app_or in Hin'. destruct Hin' as [Hin'|[E|[]]].
        -- apply (Hfresh c'); [now right | assumption].
        -- subst c'. contradiction.
    + split; [discriminate|].
      intros (vs & HF & _). inversion HF; subst. congruence.
Qed.

Lemma convert_row_spec (names : list string) (out : Dict.t pyval) :
  NoDup names ->
  (convert_row rt columns names (PDict row) = Ok out <->
   exists vs,
     Forall2 (fun c v => convert_column rt columns row c = Ok v) names vs
     /\ out = combine names vs).
Proof.
  intros Hnd. unfold convert_row.
  rewrite (convert_columns_spec names Hnd [] out); [reflexivity|].
  intros c _ [].
Qed.

(** The keys of a converted row are the column names, in their order. *)
Lemma convert_row_keys (names : list string) (out : Dict.t pyval) :
  NoDup names ->
  convert_row rt columns names (PDict row) = Ok out ->
  Dict.keys out = names.
Proof.
  intros Hnd H. apply convert_row_spec in H; [|assumption].
  destruct H as (vs & HF & ->).
  apply keys_combine. eapply Forall2_length; eassumption.
Qed.

(** Every column has its value in the converted row. *)
Lemma convert_row_get (names : list string) (out : Dict.t pyval)
    (c : string) :
  NoDup names ->
  convert_row rt columns names (PDict row) = Ok out ->
  In c names ->
  exists v, convert_column rt columns row c = Ok v
            /\ Dict.get c out = Some v.
Proof.
  intros Hnd H Hin. apply convert_row_spec in H; [|assumption].
  destruct H as (vs & HF & ->).
  destruct (Forall2_combine_get _ names vs c HF Hin) as (v & Hget & Hin').
  exists v. split; [|assumption].
  now destruct (Forall2_combine_In _ names vs c v HF Hin').
Qed.

(** The converter succeeds as soon as every column converts. *)
Lemma convert_row_total (names : list string) :
  NoDup names ->
  (forall c, In c names -> exists v, convert_column rt columns row c = Ok v) ->
  exists out, convert_row rt columns names (PDict row) = Ok out.
Proof.
  intros Hnd Hall.
  assert (exists vs,
    Forall2 (fun c v => convert_column rt columns row c = Ok v) names vs)
    as [vs HF].
  { clear Hnd. induction names as [|c names IH].
    - exists []. constructor.
    - destruct (Hall c (or_introl eq_refl)) as [v Hv].
      destruct IH as [vs HF]; [intros; apply Hall; now right|].
      exists (v :: vs). now constructor. }
  exists (combine names vs). apply convert_row_spec; eauto.
Qed.

End Converter.

(** ** The validator *)

Lemma validate_row_dict (columns : Dict.t column_def) (row_data : pyval) :
  validate_row columns row_data = true ->
  exists d, row_data = PDict d /\ validate_columns columns d = true.
Proof.
  destruct row_data; simpl; try discriminate. eauto.
Qed.

Lemma validate_columns_app (cols1 cols2 : Dict.t column_def)
    (row : Dict.t pyval) :
  validate_columns (cols1 ++ cols2) row =
  validate_columns cols1 row && validate_columns cols2 row.
Proof.
  induction cols1 as [|[c cd] cols1 IH]; simpl; [reflexivity|].
  destruct (Dict.get c row) as [v|]; [|exact IH].
  destruct (value_conforms (lower (type_name cd)) v); [exact IH | reflexivity].
Qed.

(** The verdict is the conjunction of the checks on the present columns. *)
Lemma validate_columns_true_iff (columns : Dict.t column_def)
    (row : Dict.t pyval) :
  validate_columns columns row = true <->
  (forall c cd v, In (c, cd) columns -> Dict.get c row = Some v ->
                  value_conforms (lower (type_name cd)) v = true).
Proof.
  induction columns as [|[c0 cd0] columns IH]; simpl.
  - split; [intros _ ? ? ? [] | reflexivity].
  - destruct (Dict.get c0 row) as [v0|] eqn:Hget.
    + destruct (value_conforms (lower (type_name cd0)) v0) eqn:Hok.
      * rewrite IH. split.
        -- intros H c cd v [E|Hin] Hg.
           ++ injection E as <- <-. congruence.
           ++ eapply H; eassumption.
        -- intros H c cd v Hin. apply H. now right.
      * split; [discriminate|].
        intros H. rewrite <- Hok. apply (H c0 cd0 v0); auto.
    + rewrite IH. split.
      * intros H c cd v [E|Hin] Hg.
        -- injection E as <- <-. congruence.
        -- eapply H; eassumption.
      * intros H c cd v Hin. apply H. now right.
Qed.

(** A column whose check cannot fail on this row does not change the
    verdict. *)
Lemma validate_columns_skip (cols1 cols2 : Dict.t column_def)
    (c : string) (cd : column_def) (row : Dict.t pyval) :
  (forall v, Dict.get c row = Some v ->
             value_conforms (lower (type_name cd)) v = true) ->
  validate_columns (cols1 ++ (c, cd) :: cols2) row =
  validate_columns (cols1 ++ cols2) row.
Proof.
  intros H. rewrite !validate_columns_app. f_equal. simpl.
  destruct (Dict.get c row) as [v|]; [|reflexivity].
  now rewrite (H v eq_refl).
Qed.

Lemma text_type_check (pg_type : string) (v : pyval) :
  str_in pg_type text_types = true ->
  value_conforms pg_type v = isinstance_str v.
Proof.
  unfold str_in, text_types. simpl. rewrite !orb_true_iff.
  intros H.
  repeat match goal with
         | H : _ \/ _ |- _ => destruct H as [H|H]
         end; try discriminate;
    apply String.eqb_eq in H; subst pg_type; reflexivity.
Qed.

Lemma integer_type_check (pg_type : string) (v : pyval) :
  str_in pg_type integer_types = true ->
  value_conforms pg_type v = isinstance_int v.
Proof.
  unfold value_conforms. now intros ->.
Qed.

Lemma unrecognized_type_check (pg_type : string) (v : pyval) :
  recognized pg_type = false -> value_conforms pg_type v = true.
Proof.
  unfold recognized, value_conforms. rewrite !orb_false_iff.
  intros [[[-> ->] ->] ->]. reflexivity.
Qed.

(** An accepted row has, in an integer-declared column
    that is present, an [int] in Python's sense, which leaves out every
    float, string, null, array and object but lets a boolean in. *)
Lemma integer_column_accepts_only_int_instances
    (columns : Dict.t column_def) (row : Dict.t pyval)
    (c : string) (cd : column_def) (v : pyval) :
  In (c, cd) columns ->
  str_in (lower (type_name cd)) integer_types = true ->
  Dict.get c row = Some v ->
  validate_row columns (PDict row) = true ->
  (exists z, v = PInt z) \/ (exists b, v = PBool b).
Proof.
  intros Hin Hty Hget Hval. simpl in Hval.
  rewrite validate_columns_true_iff in Hval.
  specialize (Hval c cd v Hin Hget).
  rewrite integer_type_check in Hval by assumption.
  destruct v; try discriminate; eauto.
Qed.

Lemma fractional_value_rejected_for_integer :
  validate_row Demo.a_integer
    (PDict [("a", PFloat Demo.three_and_a_half)]) = false.
Proof. reflexivity. Qed.

Lemma fractional_value_accepted_for_float :
  validate_row Demo.a_float
    (PDict [("a", PFloat Demo.three_and_a_half)]) = true.
Proof. reflexivity. Qed.

(** C1 (the code departs from the claim).  The claim: an integer-declared
    column that is present lets the row through only when its value has the
    runtime type of an exact integer.  The code: [isinstance(value, int)]
    also holds of a JSON boolean, so the row whose column [a] is [true] is
    accepted against the declared type integer, and the converter stores
    the integer 1 for it. *)
Theorem C1_integer_column_accepts_boolean (rt : runtime) :
  validate_row Demo.a_integer (PDict [("a", PBool true)]) = true /\
  convert_row rt Demo.a_integer (Dict.keys Demo.a_integer)
    (PDict [("a", PBool true)]) = Ok [("a", PInt 1)].
Proof. split; reflexivity. Qed.

(** A validated row converts without an exception when
    no float-declared column holds an integer beyond the binary64 range,
    and every value of the result is null or has the runtime type of its
    column. *)
Lemma validated_row_converts (rt : runtime) (columns : Dict.t column_def)
    (row : Dict.t pyval) :
  NoDup (Dict.keys columns) ->
  validate_row columns (PDict row) = true ->
  (forall c cd z, In (c, cd) columns ->
     str_in (lower (type_name cd)) float_types = true ->
     Dict.get c row = Some (PInt z) -> exists f, float_of_int z = Ok f) ->
  exists out,
    convert_row rt columns (Dict.keys columns) (PDict row) = Ok out /\
    (forall c cd v, In (c, cd) columns -> Dict.get c out = Some v ->
       v = PNone \/ has_declared_type (lower (type_name cd)) v).
Proof.
  intros Hnd Hval Hfit. simpl in Hval.
  rewrite validate_columns_true_iff in Hval.
  destruct (convert_row_total rt columns row (Dict.keys columns) Hnd)
    as [out Hout].
  { intros c Hin. apply in_map_iff in Hin. destruct Hin as ([c' cd] & E & Hin).
    simpl in E. subst c'. unfold convert_column.
    destruct (Dict.get c row) as [value|] eqn:Hget; [|eauto].
    destruct (is_None value); [eauto|].
    rewrite (In_get_Some c cd columns Hnd Hin).
    apply conforming_value_converts; [eapply Hval; eassumption|].
    intros z _ Hfl ->. eapply Hfit; eassumption. }
  exists out. split; [assumption|].
  intros c cd v Hin Hget.
  assert (Hc : In c (Dict.keys columns)).
  { apply in_map_iff. exists (c, cd). auto. }
  destruct (convert_row_get rt columns row _ out c Hnd Hout Hc)
    as (v' & Hcol & Hget').
  assert (v' = v) by congruence. subst v'.
  unfold convert_column in Hcol.
  destruct (Dict.get c row) as [value|]; [|injection Hcol as <-; auto].
  destruct (is_None value); [injection Hcol as <-; auto|].
  rewrite (In_get_Some c cd columns Hnd Hin) in Hcol.
  right. eapply convert_value_typed; eassumption.
Qed.

(** C2 (the code departs from the claim).  The claim: the conversion of a
    validated row never fails.  The code: an integer passes the check of a
    float-declared column whatever its size, and [float(value)] raises
    [OverflowError] on an integer that rounds beyond the binary64 range;
    the row [{a: 10^400}] against the declared type float8 is accepted and
    its conversion raises, which ends the iteration of [execute]. *)
Theorem C2_validated_row_conversion_overflows (rt : runtime) :
  let row := PDict [("a", PInt (10 ^ 400))] in
  validate_row Demo.a_float row = true /\
  convert_row rt Demo.a_float (Dict.keys Demo.a_float) row
    = Raise OverflowError /\
  emit_rows rt [row] (Demo.fresh (Demo.wrapper_of Demo.a_float))
    = (Raise OverflowError, Demo.fresh (Demo.wrapper_of Demo.a_float)).
Proof. repeat split; vm_compute; reflexivity. Qed.

(** C4 (the code departs from the claim).  The claim: a declared column
    present with a JSON null gives an accepted row with null for it.  The
    code: the converter has the null case, but the validator runs first and
    [isinstance(None, int)] is false, so the row [{a: null}] against the
    declared type integer is rejected and skipped; no row is yielded. *)
Theorem C4_present_null_rejected (rt : runtime) :
  let row := PDict [("a", PNone)] in
  let w := Demo.wrapper_of Demo.a_integer in
  validate_row Demo.a_integer row = false /\
  convert_row rt Demo.a_integer (Dict.keys Demo.a_integer) row
    = Ok [("a", PNone)] /\
  emit_rows rt [row] (Demo.fresh w)
    = (Ok tt, {| self := w;
                 sink := [(MsgSkippingInvalidRow row, WARNING)];
                 yielded := [] |}).
Proof. repeat split; reflexivity. Qed.

(** An absent column, or one already null in the accumulator, is null in
    the converted row, whatever the other columns are. *)
Lemma convert_columns_absent (rt : runtime) (columns : Dict.t column_def)
    (row : Dict.t pyval) (c : string) (names : list string) :
  Dict.get c row = None ->
  forall acc out,
  In c names \/ Dict.get c acc = Some PNone ->
  convert_columns rt columns names (PDict row) acc = Ok out ->
  Dict.get c out = Some PNone.
Proof.
  intros Habs. induction names as [|n names IH]; intros acc out Hc.
  - simpl. intros [= <-]. destruct Hc as [[]|Hc]. exact Hc.
  - rewrite convert_columns_step.
    destruct (convert_column rt columns row n) as [v|e] eqn:Hn;
      simpl; [|discriminate].
    apply IH. destruct (String.eqb_spec c n) as [->|Hne].
    + right. unfold convert_column in Hn. rewrite Habs in Hn.
      injection Hn as <-. apply get_set_same.
    + destruct Hc as [[E|Hin]|Hacc].
      * congruence.
      * now left.
      * right. now rewrite get_set_other.
Qed.

(** C5.  For every candidate row and every column declared in the schema
    but absent from the row: the validator's verdict is the one it gives
    on the schema without that column, so the absence never causes a
    rejection; and the converter, when it returns a row, has null for
    that column. *)
Theorem C5_absent_column_is_null (rt : runtime)
    (cols1 cols2 : Dict.t column_def) (c : string) (cd : column_def)
    (row : Dict.t pyval) :
  Dict.get c row = None ->
  let columns := cols1 ++ (c, cd) :: cols2 in
  validate_row columns (PDict row) = validate_row (cols1 ++ cols2) (PDict row)
  /\ (forall out,
        convert_row rt columns (Dict.keys columns) (PDict row) = Ok out ->
        Dict.get c out = Some PNone).
Proof.
  intros Habs columns. split.
  - simpl. apply validate_columns_skip. intros v Hv. congruence.
  - intros out Hout.
    apply (convert_columns_absent rt columns row c (Dict.keys columns) Habs
             [] out); [|exact Hout].
    left. unfold columns. rewrite keys_app. apply in_or_app. right. now left.
Qed.

(** The schema [{active: boolean}] with the candidate [{}]: accepted, and
    converted to [{active: null}]. *)
Lemma C5_absent_column_is_null_witness :
  Dict.get "active" ([] : Dict.t pyval) = None /\
  validate_row Demo.active (PDict []) = true /\
  convert_row Demo.rt Demo.active (Dict.keys Demo.active) (PDict [])
    = Ok [("active", PNone)] /\
  Dict.get "active" [("active", PNone)] = Some PNone.
Proof.
  split; [reflexivity|].
  destruct (C5_absent_column_is_null Demo.rt [] [] "active"
              {| type_name := "boolean" |} [] eq_refl) as [Hv Hc].
  split; [exact Hv|].
  split; [reflexivity|].
  apply (Hc [("active", PNone)]). reflexivity.
Defined.

(** C6.  For every candidate row that passed validation, the row the
    converter returns has exactly the schema's columns as its keys, in
    schema order, and has no entry for any key that the schema does not
    declare, whatever the candidate row holds under it. *)
Theorem C6_accepted_row_has_exactly_schema_columns (rt : runtime)
    (columns : Dict.t column_def) (row_data : pyval) (out : Dict.t pyval) :
  NoDup (Dict.keys columns) ->
  validate_row columns row_data = true ->
  convert_row rt columns (Dict.keys columns) row_data = Ok out ->
  Dict.keys out = Dict.keys columns
  /\ (forall k, ~ In k (Dict.keys columns) -> Dict.get k out = None).
Proof.
  intros Hnd Hval Hout.
  destruct (validate_row_dict _ _ Hval) as (row & -> & _).
  assert (Hkeys : Dict.keys out = Dict.keys columns)
    by (eapply convert_row_keys; eassumption).
  split; [assumption|].
  intros k Hk. apply get_None_iff. now rewrite Hkeys.
Qed.

Lemma C6_accepted_row_has_exactly_schema_columns_witness :
  Dict.keys [("id", PInt 1); ("name", PStr "Ann")] = ["id"; "name"]
  /\ (forall k, ~ In k (Dict.keys Demo.people) ->
        Dict.get k [("id", PInt 1); ("name", PStr "Ann")] = None).
Proof.
  apply (C6_accepted_row_has_exactly_schema_columns Demo.rt Demo.people
           (PDict [("name", PStr "Ann"); ("age", PInt 30); ("id", PInt 1)])).
  - repeat constructor; simpl; intuition discriminate.
  - reflexivity.
  - reflexivity.
Defined.

(** For every column whose declared type is outside the recognized names
    the validator makes no check: its verdict on any row is the one it
    gives on the schema without that column, whatever value the row has
    for it, string or not.  For a column declared text, varchar, char,
    date, timestamp or timestamptz, a row in which it is present with a
    value that is not a string is rejected. *)
Lemma unrecognized_type_is_not_checked
    (cols1 cols2 : Dict.t column_def) (c : string) (cd : column_def)
    (row : Dict.t pyval) :
  (recognized (lower (type_name cd)) = false ->
   validate_row (cols1 ++ (c, cd) :: cols2) (PDict row)
   = validate_row (cols1 ++ cols2) (PDict row))
  /\ (forall v,
        str_in (lower (type_name cd)) text_types = true ->
        Dict.get c row = Some v ->
        isinstance_str v = false ->
        validate_row (cols1 ++ (c, cd) :: cols2) (PDict row) = false).
Proof.
  split.
  - intros Hun. simpl. apply validate_columns_skip.
    intros v _. now apply unrecognized_type_check.
  - intros v Hty Hget Hns. simpl.
    destruct (validate_columns (cols1 ++ (c, cd) :: cols2) row) eqn:Hv;
      [|reflexivity].
    rewrite validate_columns_true_iff in Hv.
    specialize (Hv c cd v).
    rewrite text_type_check in Hv by assumption.
    rewrite Hns in Hv. symmetry. apply Hv; [|assumption].
    apply in_or_app. right. now left.
Qed.

(** C8 (the code departs from the claim).  The claim: a column whose
    declared type is outside the recognized names is generic text, and a
    row in which it is present with a value that is not a string is
    rejected, as for a text-like column.  The code: the instruction names
    the hint "string" for such a column and the converter renders its
    value as text, but the validator's chain has no last branch for it, so
    for a column declared [uuid] the row whose value is the integer 5 is
    accepted, converted to the text of 5 and yielded, where the same row
    against the declared type [text] is rejected. *)
Theorem C8_unrecognized_type_accepts_non_string (rt : runtime) :
  let row := PDict [("x", PInt 5)] in
  let uuid := [("x", {| type_name := "uuid" |})] in
  let w := Demo.wrapper_of uuid in
  schema_obj_of uuid [] = [("x", "string")]
  /\ validate_row uuid row = true
  /\ convert_row rt uuid (Dict.keys uuid) row
     = Ok [("x", PStr (py_repr rt (PInt 5)))]
  /\ emit_rows rt [row] (Demo.fresh w)
     = (Ok tt, {| self := w;
                  sink := [];
                  yielded := [[("x", PStr (py_repr rt (PInt 5)))]] |})
  /\ validate_row [("x", {| type_name := "text" |})] row = false.
Proof. repeat split; reflexivity. Qed.

(** C10.  For every accepted row, that is the converter's result on a
    candidate row that passed validation, in which no value is null: the
    validator accepts it as a candidate row, and converting it again gives
    the same row. *)
Theorem C10_accepted_row_is_a_fixed_point (rt : runtime)
    (columns : Dict.t column_def) (row_data : pyval) (out : Dict.t pyval) :
  NoDup (Dict.keys columns) ->
  validate_row columns row_data = true ->
  convert_row rt columns (Dict.keys columns) row_data = Ok out ->
  (forall k v, In (k, v) out -> v <> PNone) ->
  validate_row columns (PDict out) = true
  /\ convert_row rt columns (Dict.keys columns) (PDict out) = Ok out.
Proof.
  intros Hnd Hval Hout Hnn.
  destruct (validate_row_dict _ _ Hval) as (row & -> & _).
  pose proof Hout as Hspec.
  apply convert_row_spec in Hspec; [|assumption].
  destruct Hspec as (vs & HF & ->).
  (* every column's value is there, and has the column's type *)
  assert (Hcol : forall c cd v,
             In (c, cd) columns ->
             Dict.get c (combine (Dict.keys columns) vs) = Some v ->
             has_declared_type (lower (type_name cd)) v).
  { intros c cd v Hin Hget.
    pose proof (get_Some_In _ _ _ Hget) as Hin'.
    destruct (Forall2_combine_In _ _ _ _ _ HF Hin') as [Hc _].
    simpl in Hc. unfold convert_column in Hc.
    destruct (Dict.get c row) as [value|];
      [|injection Hc as <-; now destruct (Hnn _ _ Hin')].
    destruct (is_None value);
      [injection Hc as <-; now destruct (Hnn _ _ Hin')|].
    rewrite (In_get_Some c cd columns Hnd Hin) in Hc.
    eapply convert_value_typed; eassumption. }
  split.
  - simpl. apply validate_columns_true_iff. intros c cd v Hin Hget.
    now apply (typed_conforms_and_fixed rt), (Hcol c cd).
  - apply convert_row_spec; [assumption|]. exists vs. split; [|reflexivity].
    (* per column, the second conversion returns the stored value *)
    assert (Hagain : forall c v,
               In (c, v) (combine (Dict.keys columns) vs) ->
               convert_column rt columns (combine (Dict.keys columns) vs) c
               = Ok v).
    { intros c v Hin'.
      destruct (Forall2_combine_In _ _ _ _ _ HF Hin') as [_ Hc].
      apply in_map_iff in Hc. destruct Hc as ([c' cd] & E & Hin).
      simpl in E. subst c'.
      assert (Hget : Dict.get c (combine (Dict.keys columns) vs) = Some v).
      { apply In_get_Some; [|assumption].
        rewrite keys_combine; [assumption|].
        eapply Forall2_length; eassumption. }
      pose proof (Hcol c cd v Hin Hget) as Hty.
      unfold convert_column. rewrite Hget.
      rewrite (typed_not_None _ _ Hty).
      rewrite (In_get_Some c cd columns Hnd Hin).
      now apply typed_conforms_and_fixed. }
    apply Forall2_of_combine; [|exact Hagain].
    eapply Forall2_length; eassumption.
Qed.

Lemma C10_accepted_row_is_a_fixed_point_witness :
  validate_row Demo.people (PDict [("id", PInt 1); ("name", PStr "Ann")])
    = true
  /\ convert_row Demo.rt Demo.people (Dict.keys Demo.people)
       (PDict [("id", PInt 1); ("name", PStr "Ann")])
     = Ok [("id", PInt 1); ("name", PStr "Ann")].
Proof.
  apply (C10_accepted_row_is_a_fixed_point Demo.rt Demo.people
           (PDict [("name", PStr "Ann"); ("id", PBool true)])).
  - repeat constructor; simpl; intuition discriminate.
  - reflexivity.
  - reflexivity.
  - intros k v [E|[E|[]]]; injection E as _ <-; discriminate.
Defined.

(** ** Strings *)

Lemma append_assoc (a b c : string) :
  ((a ++ b) ++ c = a ++ (b ++ c))%string.
Proof. induction a as [|x a IH]; simpl; [reflexivity | now rewrite IH]. Qed.

Lemma length_append (a b : string) :
  String.length (a ++ b) = String.length a + String.length b.
Proof. induction a as [|x a IH]; simpl; [reflexivity | now rewrite IH]. Qed.

Lemma drop_length_append (a b : string) :
  drop (String.length a) (a ++ b) = b.
Proof. induction a as [|x a IH]; simpl; [reflexivity | exact IH]. Qed.

Lemma take_length_append (a b : string) :
  take (String.length a) (a ++ b) = a.
Proof.
  induction a as [|x a IH]; simpl; [now destruct b | now rewrite IH].
Qed.

Lemma endswith_append (a p : string) : endswith p (a ++ p) = true.
Proof.
  unfold endswith. rewrite length_append.
  replace (String.length a + String.length p - String.length p)
    with (String.length a) by lia.
  rewrite drop_length_append, String.eqb_refl. simpl.
  apply Nat.leb_le. lia.
Qed.

Lemma drop_last_append (a p : string) :
  drop_last (String.length p) (a ++ p) = a.
Proof.
  unfold drop_last. rewrite length_append.
  replace (String.length a + String.length p - String.length p)
    with (String.length a) by lia.
  apply take_length_append.
Qed.

Lemma rstrip_append_space (a : string) (c : ascii) :
  is_space c = true -> rstrip (a ++ String c EmptyString) = rstrip a.
Proof.
  intros Hc. induction a as [|x a IH]; simpl.
  - now rewrite Hc.
  - now rewrite IH.
Qed.

Lemma rstrip_append_fence (a : string) :
  rstrip (a ++ "```") = (a ++ "```")%string.
Proof.
  induction a as [|x a IH]; [reflexivity|].
  change (rstrip (String x (a ++ "```"))
          = String x (a ++ "```")).
  simpl rstrip. rewrite IH. now destruct a.
Qed.

Lemma lstrip_append_space (a : string) (c : ascii) :
  is_space c = true ->
  lstrip (a ++ String c EmptyString) = (lstrip a ++ String c EmptyString)%string
  \/ (lstrip a = EmptyString /\ lstrip (a ++ String c EmptyString) = EmptyString).
Proof.
  intros Hc. induction a as [|x a IH]; simpl.
  - right. now rewrite Hc.
  - destruct (is_space x); [exact IH | now left].
Qed.

Lemma strip_append_space (a : string) (c : ascii) :
  is_space c = true -> strip (a ++ String c EmptyString) = strip a.
Proof.
  intros Hc. unfold strip.
  destruct (lstrip_append_space a c Hc) as [->|[-> ->]].
  - now apply rstrip_append_space.
  - reflexivity.
Qed.

Lemma prefix_append (a b : string) : String.prefix a (a ++ b) = true.
Proof.
  induction a as [|c a IH]; simpl; [now destruct b|].
  destruct (ascii_dec c c); [exact IH | contradiction].
Qed.

Lemma prefix_refl (a : string) : String.prefix a a = true.
Proof.
  induction a as [|c a IH]; simpl; [reflexivity|].
  destruct (ascii_dec c c); [exact IH | contradiction].
Qed.

Lemma startswith_iff (p s : string) :
  startswith p s = true <-> exists rest, s = (p ++ rest)%string.
Proof.
  unfold startswith. split.
  - revert s. induction p as [|c p IH]; intros s H; [now exists s|].
    destruct s as [|c' s]; simpl in H; [discriminate|].
    destruct (ascii_dec c c') as [<-|]; [|discriminate].
    destruct (IH s H) as [rest ->]. now exists rest.
  - intros [rest ->]. apply prefix_append.
Qed.

Lemma take_drop (n : nat) (s : string) : (take n s ++ drop n s)%string = s.
Proof.
  revert s. induction n as [|n IH]; intros [|c s]; simpl; try reflexivity.
  now rewrite IH.
Qed.

Lemma endswith_iff (p s : string) :
  endswith p s = true <-> exists body, s = (body ++ p)%string.
Proof.
  split.
  - unfold endswith. intros H. apply andb_true_iff in H. destruct H as [H _].
    apply String.eqb_eq in H.
    exists (take (String.length s - String.length p) s).
    pose proof (take_drop (String.length s - String.length p) s) as E.
    rewrite H in E. now symmetry.
  - intros [body ->]. apply endswith_append.
Qed.

Lemma append_cancel_right (a b p : string) :
  (a ++ p)%string = (b ++ p)%string -> a = b.
Proof.
  intros H.
  assert (Hlen : String.length a = String.length b).
  { apply (f_equal String.length) in H. rewrite !length_append in H. lia. }
  rewrite <- (take_length_append a p), <- (take_length_append b p).
  now rewrite H, Hlen.
Qed.

Lemma append_cancel_left (p a b : string) :
  (p ++ a)%string = (p ++ b)%string -> a = b.
Proof.
  induction p as [|c p IH]; simpl; [auto|]. intros [= H]. auto.
Qed.

(** The two relations are the graphs of the two conditional slices. *)
Lemma opening_removed_iff (t u : string) :
  opening_removed t u <->
  u = if startswith "```json" t then drop 7 t else t.
Proof.
  unfold opening_removed.
  destruct (startswith "```json" t) eqn:Hs.
  - apply startswith_iff in Hs. destruct Hs as [rest ->].
    change (drop 7 ("```json" ++ rest)) with rest. split.
    + intros [(rest' & E & ->)|[Hno _]].
      * symmetry. now apply append_cancel_left in E.
      * now destruct (Hno rest).
    + intros ->. left. now exists rest.
  - split.
    + intros [(rest & -> & _)|[_ ->]]; [|reflexivity].
      change (String.prefix "```json" ("```json" ++ rest) = false) in Hs.
      now rewrite prefix_append in Hs.
    + intros ->. right. split; [|reflexivity].
      intros rest ->.
      change (String.prefix "```json" ("```json" ++ rest) = false) in Hs.
      now rewrite prefix_append in Hs.
Qed.

Lemma closing_removed_iff (u v : string) :
  closing_removed u v <-> v = strip_closing u.
Proof.
  unfold closing_removed, strip_closing.
  destruct (endswith "```" u) eqn:He.
  - apply endswith_iff in He. destruct He as [body ->].
    pose proof (drop_last_append body "```") as Hd.
    change (String.length "```") with 3 in Hd. rewrite Hd. split.
    + intros [(body' & E & ->)|[Hno _]].
      * symmetry. now apply append_cancel_right in E.
      * now destruct (Hno body).
    + intros ->. left. now exists body.
  - split.
    + intros [(body & -> & _)|[_ ->]]; [|reflexivity].
      now rewrite endswith_append in He.
    + intros ->. right. split; [|reflexivity].
      intros body ->. now rewrite endswith_append in He.
Qed.

(** The extractor's text is the one text the raw text extracts to. *)
Lemma extracts_to_iff (raw text : string) :
  extracts_to raw text <-> text = strip_code_fence (strip raw).
Proof.
  unfold extracts_to, strip_code_fence. fold (strip_closing
    (if startswith "```json" (strip raw) then drop 7 (strip raw)
     else strip raw)).
  split.
  - intros (u & v & Ho & Hc & ->).
    apply opening_removed_iff in Ho. apply closing_removed_iff in Hc.
    now subst.
  - intros ->. eexists _, _.
    split; [now apply opening_removed_iff|].
    split; [now apply closing_removed_iff | reflexivity].
Qed.

(** A block whose tag begins with [json] loses the marker and those four
    letters; what follows them in the tag stays, with the body. *)
Lemma strip_code_fence_fenced_json (suffix body : string) :
  strip_code_fence (strip (fenced ("json" ++ suffix) body))
  = strip (suffix ++ newline ++ body).
Proof.
  assert (Hshape : fenced ("json" ++ suffix) body
                   = (("```json" ++ (suffix ++ newline ++ body) ++ newline)
                      ++ "```")%string).
  { unfold fenced. rewrite !append_assoc. reflexivity. }
  rewrite Hshape.
  assert (Hstrip : forall x : string,
             strip (("```json" ++ x) ++ "```")
             = (("```json" ++ x) ++ "```")%string).
  { intros x. unfold strip.
    change (lstrip (("```json" ++ x) ++ "```"))
      with (("```json" ++ x) ++ "```")%string.
    apply rstrip_append_fence. }
  rewrite Hstrip.
  set (x := ((suffix ++ newline ++ body) ++ newline)%string).
  rewrite append_assoc. unfold strip_code_fence.
  assert (Hs : startswith "```json" ("```json" ++ x ++ "```") = true)
    by apply prefix_append.
  rewrite Hs.
  pose proof (drop_length_append "```json" (x ++ "```")) as Hdrop.
  change (String.length "```json") with 7 in Hdrop. rewrite Hdrop.
  rewrite endswith_append.
  pose proof (drop_last_append x "```") as Hd.
  change (String.length "```") with 3 in Hd. rewrite Hd.
  unfold x. now apply strip_append_space.
Qed.

(** C7, as claimed, fails: the opening marker is not stripped with any
    language tag.  On a block fenced with the tag [python] the text the
    code hands to the JSON parser still begins with the marker and the
    tag, where the claimed extractor would hand over the enclosed array. *)
Lemma C7_counterexample :
  ~ (forall raw : string,
       strip_code_fence (strip raw) = extract_text_any_tag raw).
Proof.
  intros H. specialize (H (fenced "python" "[]")).
  vm_compute in H. discriminate H.
Qed.

(** C7, amended.  For every raw response text the extractor trims the
    surrounding whitespace; when the trimmed text begins with the seven
    characters of the fence marker and [json] it removes exactly those
    seven, whatever follows them (of the tag [jsonl] the [l] stays), and
    when the trimmed text begins in any other way, with another tag or
    with the bare marker, it keeps its beginning; it then removes the
    closing marker if the text ends with it, trims again, and hands that
    one text to the JSON parser: the rows of the array it parses to are
    returned, and a text that does not parse or parses to another value
    gives no rows.  In particular a block fenced with the tag [json]
    extracts to its trimmed body. *)
Theorem C7_extractor_strips_json_fence (rt : runtime) (raw : string)
    (wd : world) :
  extracts_to raw (strip_code_fence (strip raw))
  /\ (forall text,
        extracts_to raw text ->
        text = strip_code_fence (strip raw)
        /\ fst (parse_content rt (strip raw) wd) = parsed_rows rt text)
  /\ (forall suffix body,
        raw = fenced ("json" ++ suffix) body ->
        extracts_to raw (strip (suffix ++ newline ++ body)))
  /\ (forall body, raw = fenced "json" body -> extracts_to raw (strip body)).
Proof.
  split; [now apply extracts_to_iff|].
  split; [|split].
  - intros text Hx. apply extracts_to_iff in Hx. split; [exact Hx|].
    subst text. unfold parse_content, parsed_rows, try_except, bind, lift.
    destruct (json_loads rt (strip_code_fence (strip raw))) as [v|e]; cbn.
    + destruct v; reflexivity.
    + destruct (is_JSONDecodeError e); reflexivity.
  - intros suffix body ->. apply extracts_to_iff.
    symmetry. apply strip_code_fence_fenced_json.
  - intros body ->. apply extracts_to_iff.
    change (fenced "json" body) with (fenced ("json" ++ EmptyString) body).
    rewrite strip_code_fence_fenced_json. reflexivity.
Qed.

Lemma C7_extractor_strips_json_fence_witness :
  fst (parse_content Demo.rt (strip (fenced "json" " [1, 2]"))
         (Demo.fresh (Demo.wrapper_of Demo.people)))
  = parsed_rows Demo.rt (strip " [1, 2]")
  /\ extracts_to (fenced "jsonl" "[1]") (strip ("l" ++ newline ++ "[1]")).
Proof.
  destruct (C7_extractor_strips_json_fence Demo.rt (fenced "json" " [1, 2]")
              (Demo.fresh (Demo.wrapper_of Demo.people)))
    as (_ & Hone & _ & Hjson).
  split.
  - apply (Hone (strip " [1, 2]")). apply (Hjson " [1, 2]"). reflexivity.
  - apply (proj1 (proj2 (proj2
      (C7_extractor_strips_json_fence Demo.rt (fenced "jsonl" "[1]")
         (Demo.fresh (Demo.wrapper_of Demo.people)))))
      "l" "[1]").
    reflexivity.
Defined.

(** ** The methods leave the object unchanged *)

Create HintDb frame.

Lemma preserves_ret {A} (a : A) : preserves_self (ret a).
Proof. intros wd. reflexivity. Qed.

Lemma preserves_raise {A} (e : exn) : preserves_self (@raise A e).
Proof. intros wd. reflexivity. Qed.

Lemma preserves_lift {A} (r : result A) : preserves_self (lift r).
Proof. intros wd. reflexivity. Qed.

Lemma preserves_attr {A} (f : wrapper -> A) : preserves_self (attr f).
Proof. intros wd. reflexivity. Qed.

Lemma preserves_log (msg : message) (lvl : level) :
  preserves_self (log_to_postgres msg lvl).
Proof. intros wd. reflexivity. Qed.

Lemma preserves_yield (row : Dict.t pyval) : preserves_self (yield row).
Proof. intros wd. reflexivity. Qed.

Lemma preserves_bind {A B} (m : M A) (k : A -> M B) :
  preserves_self m -> (forall a, preserves_self (k a)) ->
  preserves_self (bind m k).
Proof.
  intros Hm Hk wd. unfold bind. specialize (Hm wd).
  destruct (m wd) as [[a|e] wd']; simpl in *.
  - now rewrite Hk.
  - exact Hm.
Qed.

Lemma preserves_find_handler {A}
    (clauses : list ((exn -> bool) * (exn -> M A))) (e : exn) (h : M A) :
  Forall (fun cl => forall e, preserves_self (snd cl e)) clauses ->
  find_handler clauses e = Some h -> preserves_self h.
Proof.
  induction 1 as [|[catches handler] clauses Hcl _ IH]; simpl; [discriminate|].
  destruct (catches e); [intros [= <-]; apply Hcl | exact IH].
Qed.

Lemma preserves_try_except {A} (body : M A)
    (clauses : list ((exn -> bool) * (exn -> M A))) :
  preserves_self body ->
  Forall (fun cl => forall e, preserves_self (snd cl e)) clauses ->
  preserves_self (try_except body clauses).
Proof.
  intros Hb Hc wd. unfold try_except. specialize (Hb wd).
  destruct (body wd) as [[a|e] wd']; simpl in *; [exact Hb|].
  destruct (find_handler clauses e) as [h|] eqn:Hh; [|exact Hb].
  rewrite (preserves_find_handler clauses e h Hc Hh). exact Hb.
Qed.

#[local] Hint Resolve preserves_ret preserves_raise preserves_lift
  preserves_attr preserves_log preserves_yield : frame.

Ltac frame_step :=
  match goal with
  | |- preserves_self (bind _ _) => apply preserves_bind; [|intros ?]
  | |- preserves_self (try_except _ _) =>
      apply preserves_try_except; [|repeat constructor; intros ?; simpl]
  | |- preserves_self (if ?b then _ else _) => destruct b
  | |- preserves_self (match ?x with _ => _ end) => destruct x
  | |- _ => solve [auto with frame]
  end.

Section Frame.

Variable rt : runtime.

Lemma preserves_generate_schema_info :
  preserves_self (_generate_schema_info rt).
Proof. unfold _generate_schema_info. repeat frame_step. Qed.

Lemma preserves_validate (row_data : pyval) :
  preserves_self (_validate_row_schema row_data).
Proof. unfold _validate_row_schema. repeat frame_step. Qed.

Lemma preserves_convert (row_data : pyval) :
  preserves_self (_convert_row_to_postgres_format rt row_data).
Proof. unfold _convert_row_to_postgres_format. repeat frame_step. Qed.

Lemma preserves_parse_content (content : string) :
  preserves_self (parse_content rt content).
Proof. unfold parse_content. repeat frame_step. Qed.

Lemma preserves_make_openai_request (schema_info : string) :
  preserves_self (_make_openai_request rt schema_info).
Proof.
  unfold _make_openai_request.
  repeat first [apply preserves_parse_content | frame_step].
Qed.

Lemma preserves_emit_rows (response_data : list pyval) :
  preserves_self (emit_rows rt response_data).
Proof.
  induction response_data as [|row_data rest IH]; simpl.
  - auto with frame.
  - repeat first [apply preserves_validate | apply preserves_convert
                 | exact IH | frame_step].
Qed.

Lemma preserves_execute (quals : list pyval) (cols : list string) :
  preserves_self (execute rt quals cols).
Proof.
  unfold execute.
  repeat first [apply preserves_generate_schema_info
               | apply preserves_make_openai_request
               | apply preserves_emit_rows | frame_step].
Qed.

Lemma init_fields (options : Dict.t string) (cols : Dict.t column_def)
    (log log' : list event) (w : wrapper) :
  __init__ rt options cols log = (Ok w, log') ->
  columns w = cols /\ column_names w = Dict.keys cols
  /\ _response_cache w = None.
Proof.
  unfold __init__, report_configuration_error.
  destruct (option_falsy (Dict.get "api_key" options)); [discriminate|].
  destruct (option_falsy (Dict.get "prompt" options)); [discriminate|].
  destruct (int_of_str rt (get_default "max_tokens" options "2000"));
    [|discriminate].
  destruct (float_of_str rt (get_default "temperature" options "0.7"));
    [|discriminate].
  destruct (int_of_str rt (get_default "max_rows" options "100"));
    [|discriminate].
  intros [= <- _]. auto.
Qed.

End Frame.

(** C9.  Executing the pipeline does not change the wrapper: whatever the
    state [execute] starts in and however the invocation ends, the object
    afterwards is the object before, field for field; and for an object
    that [__init__] built, the response cache, set to [None] there, is
    [None] after any invocation. *)
Theorem C9_execute_leaves_wrapper_unchanged (rt : runtime)
    (quals : list pyval) (cols : list string) (wd : world) :
  self (snd (execute rt quals cols wd)) = self wd
  /\ (forall options columns log,
        match __init__ rt options columns log with
        | (Ok w, _) =>
            _response_cache w = None
            /\ _response_cache (self (snd (run_execute rt w quals cols)))
               = None
        | (Raise _, _) => True
        end).
Proof.
  split; [apply preserves_execute|].
  intros options columns log.
  destruct (__init__ rt options columns log) as [[w|e] log'] eqn:Hinit;
    [|exact I].
  destruct (init_fields rt _ _ _ _ _ Hinit) as (_ & _ & Hcache).
  split; [assumption|].
  unfold run_execute. now rewrite preserves_execute.
Qed.

(** ** Failed invocations *)

Lemma failed_request_returns_None (rt : runtime) (schema_info : string)
    (wd : world) :
  invocation_fails rt (build_request (self wd) schema_info) ->
  fst (_make_openai_request rt schema_info wd) = Ok None
  /\ yielded (snd (_make_openai_request rt schema_info wd)) = yielded wd
  /\ exists msg,
       In (msg, ERROR) (sink (snd (_make_openai_request rt schema_info wd))).
Proof.
  intros Hfail.
  unfold _make_openai_request, bind, attr, try_except, log_to_postgres,
    lift, send; simpl.
  destruct Hfail as [e He | He | e He | res He Hno | res s e He Hs Hj
                    | res s v He Hs Hj Hna]; rewrite He; simpl.
  - destruct (is_RequestException e); simpl;
      (split; [reflexivity | split; [reflexivity|]]);
      eexists; apply in_or_app; right; now left.
  - split; [reflexivity | split; [reflexivity|]].
    eexists; apply in_or_app; right; now left.
  - destruct (is_RequestException e); simpl;
      (split; [reflexivity | split; [reflexivity|]]);
      eexists; apply in_or_app; right; now left.
  - destruct (no_choices res) as [[|]|e]; simpl.
    + split; [reflexivity | split; [reflexivity|]].
      eexists; apply in_or_app; right; now left.
    + destruct (completion_text res) as [s|e]; [now destruct (Hno s)|].
      simpl. destruct (is_RequestException e); simpl;
        (split; [reflexivity | split; [reflexivity|]]);
        eexists; apply in_or_app; right; now left.
    + destruct (is_RequestException e); simpl;
        (split; [reflexivity | split; [reflexivity|]]);
        eexists; apply in_or_app; right; now left.
  - destruct (no_choices res) as [[|]|e']; simpl.
    + split; [reflexivity | split; [reflexivity|]].
      eexists; apply in_or_app; right; now left.
    + rewrite Hs. unfold parse_content, try_except, bind, lift.
      rewrite Hj. simpl.
      destruct (is_JSONDecodeError e); simpl;
        [|destruct (is_RequestException e); simpl];
        (split; [reflexivity | split; [reflexivity|]]);
        eexists; apply in_or_app; right; now left.
    + destruct (is_RequestException e'); simpl;
        (split; [reflexivity | split; [reflexivity|]]);
        eexists; apply in_or_app; right; now left.
  - destruct (no_choices res) as [[|]|e']; simpl.
    + split; [reflexivity | split; [reflexivity|]].
      eexists; apply in_or_app; right; now left.
    + rewrite Hs. unfold parse_content, try_except, bind, lift.
      rewrite Hj. simpl.
      destruct v; try (now destruct (Hna l)); simpl;
        (split; [reflexivity | split; [reflexivity|]]);
        eexists; apply in_or_app; right; now left.
    + destruct (is_RequestException e'); simpl;
        (split; [reflexivity | split; [reflexivity|]]);
        eexists; apply in_or_app; right; now left.
Qed.

(** C3.  For every invocation in which the transport raises, the envelope
    has no completion text, the completion text does not parse as JSON, or
    it parses to a value that is not an array: [execute] returns normally,
    no exception reaching the caller, it has yielded no row, and the sink has
    received an event of level ERROR for the failure and the WARNING that
    no data was returned. *)
Theorem C3_failed_invocation_yields_no_rows (rt : runtime) (w : wrapper)
    (quals : list pyval) (cols : list string) :
  invocation_fails rt (request_of rt w) ->
  fst (run_execute rt w quals cols) = Ok tt
  /\ yielded (snd (run_execute rt w quals cols)) = []
  /\ (exists msg, In (msg, ERROR) (sink (snd (run_execute rt w quals cols))))
  /\ In (MsgNoData, WARNING) (sink (snd (run_execute rt w quals cols))).
Proof.
  intros Hfail.
  destruct (failed_request_returns_None rt
              (render_instruction rt (schema_obj_of (columns w) []) (max_rows w))
              {| self := w; sink := []; yielded := [] |} Hfail)
    as (Hres & Hy & msg & Hmsg).
  unfold run_execute, execute, try_except, _generate_schema_info.
  unfold bind, attr, ret.
  cbn [self fst snd].
  destruct (_make_openai_request rt _ _) as [r wd'].
  cbn [fst snd] in Hres, Hy, Hmsg. subst r.
  cbn [yielded] in Hy.
  unfold log_to_postgres. cbn [fst snd sink yielded].
  repeat split.
  - exact Hy.
  - exists msg. apply in_or_app. now left.
  - apply in_or_app. right. now left.
Qed.

Lemma C3_failed_invocation_yields_no_rows_witness :
  fst (run_execute Demo.rt (Demo.wrapper_of Demo.people) [] []) = Ok tt
  /\ yielded (snd (run_execute Demo.rt (Demo.wrapper_of Demo.people) [] []))
     = []
  /\ (exists msg,
        In (msg, ERROR)
          (sink (snd (run_execute Demo.rt (Demo.wrapper_of Demo.people)
                        [] []))))
  /\ In (MsgNoData, WARNING)
       (sink (snd (run_execute Demo.rt (Demo.wrapper_of Demo.people) [] []))).
Proof.
  apply (C3_failed_invocation_yields_no_rows Demo.rt
           (Demo.wrapper_of Demo.people) [] []).
  apply (Transport_post_raises Demo.rt _ RequestException). reflexivity.
Defined.

(** ** End-to-end scenarios *)

(** Scenario A: the fenced answer with one conforming and one
    non-conforming element yields the conforming row only. *)
Example scenario_A :
  let rt := Demo.rt_answering (fenced "json" Demo.scenario_A_text)
              Demo.scenario_A_text Demo.scenario_A_rows in
  let run := run_execute rt (Demo.wrapper_of Demo.people) [] [] in
  fst run = Ok tt
  /\ yielded (snd run) = [[("id", PInt 1); ("name", PStr "Ann")]]
  /\ In (MsgSkippingInvalidRow
           (PDict [("id", PStr "x"); ("name", PStr "Bo")]), WARNING)
       (sink (snd run)).
Proof. vm_compute. intuition. Qed.

(** Scenario B: an answer that is plain prose yields nothing and raises
    nothing. *)
Example scenario_B :
  let rt := Demo.rt_answering "Sorry, I cannot comply."
              Demo.scenario_A_text Demo.scenario_A_rows in
  let run := run_execute rt (Demo.wrapper_of Demo.people) [] [] in
  fst run = Ok tt /\ yielded (snd run) = [].
Proof. vm_compute. intuition. Qed.

(** Scenario C: a row without the declared column is accepted, with null
    for it. *)
Example scenario_C :
  let rt := Demo.rt_answering Demo.scenario_C_text
              Demo.scenario_C_text Demo.scenario_C_rows in
  let run := run_execute rt (Demo.wrapper_of Demo.active) [] [] in
  fst run = Ok tt
  /\ yielded (snd run)
     = [[("active", PBool true)]; [("active", PNone)]].
Proof. vm_compute. intuition. Qed.

(** * Further properties of the code *)

(** ** [strip] and the extractor on plain text *)

Lemma lstrip_first_not_space (s : string) : first_not_space (lstrip s).
Proof.
  induction s as [|c s IH]; simpl; [exact I|].
  destruct (is_space c) eqn:Hc; [exact IH | simpl; exact Hc].
Qed.

Lemma lstrip_fixed (s : string) : first_not_space s -> lstrip s = s.
Proof. destruct s as [|c s]; simpl; [reflexivity | now intros ->]. Qed.

Lemma rstrip_first_not_space (s : string) :
  first_not_space s -> first_not_space (rstrip s).
Proof.
  destruct s as [|c s]; simpl; [auto|]. intros Hc.
  destruct (rstrip s); [rewrite Hc|]; exact Hc.
Qed.

Lemma rstrip_idempotent (s : string) : rstrip (rstrip s) = rstrip s.
Proof.
  induction s as [|c s IH]; [reflexivity|]. simpl.
  destruct (rstrip s) as [|c' r] eqn:Hr.
  - destruct (is_space c) eqn:Hc; [reflexivity|]. simpl. now rewrite Hc.
  - change (match rstrip (String c' r) with
            | EmptyString =>
                if is_space c then EmptyString else String c EmptyString
            | r0 => String c r0
            end = String c (String c' r)).
    now rewrite IH.
Qed.

Lemma strip_idempotent (s : string) : strip (strip s) = strip s.
Proof.
  unfold strip.
  rewrite (lstrip_fixed (rstrip (lstrip s))).
  - apply rstrip_idempotent.
  - apply rstrip_first_not_space, lstrip_first_not_space.
Qed.

(** A completion text that, once trimmed, neither begins with the marker
    and tag [json] nor ends with the closing marker reaches the JSON parser
    trimmed and otherwise untouched. *)
Theorem plain_text_is_only_trimmed (raw : string) :
  startswith "```json" (strip raw) = false ->
  endswith "```" (strip raw) = false ->
  strip_code_fence (strip raw) = strip raw.
Proof.
  intros Ho Hc. unfold strip_code_fence. rewrite Ho, Hc.
  apply strip_idempotent.
Qed.

Lemma plain_text_is_only_trimmed_witness :
  strip_code_fence (strip "  [1, 2] ") = strip "  [1, 2] ".
Proof.
  apply (plain_text_is_only_trimmed "  [1, 2] "); reflexivity.
Defined.

(** ** The envelope *)

(** The completion text is found exactly in an envelope of the documented
    shape: an object whose [choices] is an array beginning with an object
    whose [message] is an object whose [content] is a string; the text is
    that string, trimmed.  A null or missing content, an empty array, or
    any other shape gives an exception. *)
Theorem completion_text_shape (res : pyval) (s : string) :
  completion_text res = Ok s <->
  exists content, well_formed_envelope res content /\ s = strip content.
Proof.
  split.
  - unfold completion_text. intros H.
    destruct res as [| | | | |l|d]; try discriminate H. simpl in H.
    destruct (Dict.get "choices" d) as [choices|] eqn:Hch;
      [|discriminate H]. simpl in H.
    destruct choices as [| | | |cs|l|cd]; try discriminate H.
    { destruct cs; discriminate H. }
    destruct l as [|choice rest]; [discriminate H|]. simpl in H.
    destruct choice as [| | | | | |choice]; try discriminate H. simpl in H.
    destruct (Dict.get "message" choice) as [msg|] eqn:Hmsg;
      [|discriminate H]. simpl in H.
    destruct msg as [| | | | | |msg]; try discriminate H. simpl in H.
    destruct (Dict.get "content" msg) as [content|] eqn:Hct;
      [|discriminate H]. simpl in H.
    destruct content as [| | | |content| |]; try discriminate H.
    injection H as <-. exists content. split; [|reflexivity].
    exists d, rest, choice, msg. auto.
  - intros (content & (d & rest & choice & msg & -> & Hch & Hmsg & Hct) & ->).
    unfold completion_text. simpl. rewrite Hch. simpl. rewrite Hmsg. simpl.
    rewrite Hct. reflexivity.
Qed.

Lemma completion_text_shape_witness :
  completion_text (Demo.envelope_of " [] ") = Ok "[]".
Proof.
  apply (proj2 (completion_text_shape (Demo.envelope_of " [] ") "[]")).
  exists " [] ". split; [|reflexivity].
  eexists _, _, _, _. repeat split; reflexivity.
Defined.

(** An envelope with a completion text passes the guard on [choices]. *)
Lemma completion_text_no_choices (res : pyval) (s : string) :
  completion_text res = Ok s -> no_choices res = Ok false.
Proof.
  intros H. apply completion_text_shape in H.
  destruct H as (content & (d & rest & choice & msg & -> & Hch & _) & _).
  unfold no_choices. simpl. unfold Dict.mem. rewrite Hch. reflexivity.
Qed.

(** ** [_make_openai_request] *)

(** The request never raises: whatever the transport, the envelope and the
    JSON parser do, the method returns, and it yields no row. *)
Theorem make_openai_request_never_raises (rt : runtime)
    (schema_info : string) (wd : world) :
  (exists r, fst (_make_openai_request rt schema_info wd) = Ok r)
  /\ yielded (snd (_make_openai_request rt schema_info wd)) = yielded wd.
Proof.
  unfold _make_openai_request, bind, attr, try_except, log_to_postgres,
    lift, send. cbn [self fst snd].
  destruct (requests_post rt (build_request (self wd) schema_info))
    as [e| |e|res]; cbn.
  1-3: try destruct (is_RequestException e); cbn; eauto.
  destruct (no_choices res) as [[|]|e]; cbn.
  - eauto.
  - destruct (completion_text res) as [s|e]; cbn.
    + unfold parse_content, try_except, bind, lift.
      destruct (json_loads rt (strip_code_fence s)) as [v|e]; cbn.
      * destruct v; cbn; eauto.
      * destruct (is_JSONDecodeError e); cbn; [eauto|].
        destruct (is_RequestException e); cbn; eauto.
    + destruct (is_RequestException e); cbn; eauto.
  - destruct (is_RequestException e); cbn; eauto.
Qed.

(** The request returns rows exactly when the transport answers with an
    envelope that has a completion text whose cleaned form parses to an
    array; the rows are the elements of that array. *)
Theorem make_openai_request_returns_rows_iff (rt : runtime)
    (schema_info : string) (wd : world) (rows : list pyval) :
  fst (_make_openai_request rt schema_info wd) = Ok (Some rows) <->
  exists res s,
    requests_post rt (build_request (self wd) schema_info) = Envelope res
    /\ completion_text res = Ok s
    /\ json_loads rt (strip_code_fence s) = Ok (PList rows).
Proof.
  unfold _make_openai_request, bind, attr, try_except, log_to_postgres,
    lift, send. cbn [self fst snd].
  split.
  - destruct (requests_post rt (build_request (self wd) schema_info))
      as [e| |e|res]; cbn.
    1-3: try destruct (is_RequestException e); cbn; discriminate.
    destruct (no_choices res) as [[|]|e]; cbn.
    + discriminate.
    + destruct (completion_text res) as [s|e] eqn:Hs; cbn.
      * unfold parse_content, try_except, bind, lift.
        destruct (json_loads rt (strip_code_fence s)) as [v|e] eqn:Hj; cbn.
        -- destruct v; cbn; try discriminate.
           intros [= <-]. eauto.
        -- destruct (is_JSONDecodeError e); cbn; [discriminate|].
           destruct (is_RequestException e); cbn; discriminate.
      * destruct (is_RequestException e); cbn; discriminate.
    + destruct (is_RequestException e); cbn; discriminate.
  - intros (res & s & Hpost & Hs & Hj). rewrite Hpost. cbn.
    rewrite (completion_text_no_choices res s Hs). cbn. rewrite Hs. cbn.
    unfold parse_content, try_except, bind, lift. rewrite Hj. reflexivity.
Qed.

Lemma make_openai_request_returns_rows_iff_witness :
  fst (_make_openai_request
         (Demo.rt_answering (fenced "json" "[]") "[]" [PBool true])
         "<instruction>" (Demo.fresh (Demo.wrapper_of Demo.active)))
  = Ok (Some [PBool true]).
Proof.
  apply (proj2 (make_openai_request_returns_rows_iff
                  (Demo.rt_answering (fenced "json" "[]") "[]" [PBool true])
                  "<instruction>" (Demo.fresh (Demo.wrapper_of Demo.active))
                  [PBool true])).
  exists (Demo.envelope_of (fenced "json" "[]")), (strip (fenced "json" "[]")).
  repeat split; reflexivity.
Defined.

(** On success the sink receives two events and no more: the DEBUG event
    of the request and the INFO event with the number of parsed rows. *)
Theorem make_openai_request_success_log (rt : runtime)
    (schema_info : string) (wd : world) (rows : list pyval) :
  fst (_make_openai_request rt schema_info wd) = Ok (Some rows) ->
  sink (snd (_make_openai_request rt schema_info wd))
  = sink wd ++ [(MsgMakingRequest (model (self wd)), DEBUG);
                (MsgParsedRows (List.length rows), INFO)].
Proof.
  intros H. apply make_openai_request_returns_rows_iff in H.
  destruct H as (res & s & Hpost & Hs & Hj).
  unfold _make_openai_request, bind, attr, try_except, log_to_postgres,
    lift, send. cbn [self fst snd]. rewrite Hpost. cbn.
  rewrite (completion_text_no_choices res s Hs). cbn. rewrite Hs. cbn.
  unfold parse_content, try_except, bind, lift. rewrite Hj. cbn.
  now rewrite <- app_assoc.
Qed.

Lemma make_openai_request_success_log_witness :
  sink (snd (_make_openai_request
               (Demo.rt_answering (fenced "json" "[]") "[]" [PBool true])
               "<instruction>" (Demo.fresh (Demo.wrapper_of Demo.active))))
  = [] ++ [(MsgMakingRequest "gpt-3.5-turbo", DEBUG);
           (MsgParsedRows 1, INFO)].
Proof.
  apply (make_openai_request_success_log
           (Demo.rt_answering (fenced "json" "[]") "[]" [PBool true])
           "<instruction>" (Demo.fresh (Demo.wrapper_of Demo.active))
           [PBool true]).
  reflexivity.
Defined.

(** ** The validator and the instruction *)

(** The verdict depends on the candidate row only through the declared
    columns: two rows that agree on every declared column are accepted or
    rejected together, whatever else they hold. *)
Theorem validate_depends_on_declared_columns (columns : Dict.t column_def)
    (row1 row2 : Dict.t pyval) :
  (forall c, In c (Dict.keys columns) -> Dict.get c row1 = Dict.get c row2) ->
  validate_row columns (PDict row1) = validate_row columns (PDict row2).
Proof.
  simpl. induction columns as [|[c cd] columns IH]; intros Hagree;
    [reflexivity|]. simpl.
  rewrite <- (Hagree c (or_introl eq_refl)).
  rewrite IH by (intros c' Hc'; apply Hagree; now right).
  reflexivity.
Qed.

Lemma validate_depends_on_declared_columns_witness :
  validate_row Demo.people
    (PDict [("age", PStr "old"); ("id", PInt 1); ("name", PStr "Ann")])
  = validate_row Demo.people
      (PDict [("name", PStr "Ann"); ("id", PInt 1)]).
Proof.
  apply (validate_depends_on_declared_columns Demo.people
           [("age", PStr "old"); ("id", PInt 1); ("name", PStr "Ann")]
           [("name", PStr "Ann"); ("id", PInt 1)]).
  intros c [<-|[<-|[]]]; reflexivity.
Defined.

Lemma schema_obj_of_spec (columns : Dict.t column_def) :
  NoDup (Dict.keys columns) ->
  forall acc : Dict.t string,
  (forall c, In c (Dict.keys columns) -> ~ In c (Dict.keys acc)) ->
  schema_obj_of columns acc
  = acc ++ map (fun kv => (fst kv, json_type_hint (lower (type_name (snd kv)))))
             columns.
Proof.
  induction columns as [|[c cd] columns IH]; intros Hnd acc Hfresh; simpl.
  - now rewrite app_nil_r.
  - inversion Hnd as [|? ? Hnotin Hnd']; subst.
    rewrite set_fresh by (apply Hfresh; now left).
    rewrite IH; [now rewrite <- app_assoc | assumption |].
    intros c' Hin. rewrite keys_app. simpl. intros Hin'.
    apply in_app_or in Hin'. destruct Hin' as [Hin'|[E|[]]].
    + apply (Hfresh c'); [now right | assumption].
    + subst c'. contradiction.
Qed.

Lemma json_type_hint_closed (pg_type : string) :
  In (json_type_hint pg_type) type_hints.
Proof.
  unfold json_type_hint, type_hints.
  destruct (str_in pg_type integer_types); [simpl; auto|].
  destruct (str_in pg_type float_types); [simpl; auto|].
  destruct (str_in pg_type boolean_types); [simpl; auto|].
  destruct (str_in pg_type ["date"]); [simpl; auto|].
  destruct (str_in pg_type ["timestamp"; "timestamptz"]); simpl; auto 7.
Qed.

(** The schema object of the instruction names every column once, in
    schema order, and gives each a hint out of the six the code knows. *)
Theorem schema_obj_lists_columns_with_known_hints
    (columns : Dict.t column_def) :
  NoDup (Dict.keys columns) ->
  Dict.keys (schema_obj_of columns []) = Dict.keys columns
  /\ Forall (fun kv => In (snd kv) type_hints) (schema_obj_of columns []).
Proof.
  intros Hnd.
  rewrite (schema_obj_of_spec columns Hnd []) by (intros c _ []).
  simpl. split.
  - unfold Dict.keys. rewrite map_map. reflexivity.
  - apply Forall_forall. intros kv Hin. apply in_map_iff in Hin.
    destruct Hin as (x & <- & _). simpl. apply json_type_hint_closed.
Qed.

Lemma schema_obj_lists_columns_with_known_hints_witness :
  Dict.keys (schema_obj_of Cases.mixed_columns [])
  = ["id"; "score"; "ok"; "born"; "seen"; "tags"]
  /\ Forall (fun kv => In (snd kv) type_hints)
       (schema_obj_of Cases.mixed_columns []).
Proof.
  apply (schema_obj_lists_columns_with_known_hints Cases.mixed_columns).
  repeat constructor; simpl; intuition discriminate.
Defined.

Lemma hint_allows_conforms (pg_type : string) (v : pyval) :
  hint_allows (json_type_hint pg_type) v = true ->
  value_conforms pg_type v = true.
Proof.
  unfold json_type_hint, value_conforms.
  destruct (str_in pg_type integer_types).
  { destruct v; simpl; auto; discriminate. }
  destruct (str_in pg_type float_types).
  { destruct v; simpl; auto; discriminate. }
  destruct (str_in pg_type boolean_types); [auto|].
  destruct (str_in pg_type text_types); [|reflexivity].
  destruct (str_in pg_type ["date"]); [auto|].
  destruct (str_in pg_type ["timestamp"; "timestamptz"]); auto.
Qed.

(** The validator accepts what the instruction asks for: a row in which
    every declared column that is present holds a value of the JSON type
    its hint names (a number without fraction for "number (integer)", any
    number for "number (float)", a boolean for "boolean", a string for the
    three string hints) is accepted. *)
Theorem row_following_the_instruction_is_accepted
    (columns : Dict.t column_def) (row : Dict.t pyval) :
  NoDup (Dict.keys columns) ->
  (forall c hint v,
     Dict.get c (schema_obj_of columns []) = Some hint ->
     Dict.get c row = Some v -> hint_allows hint v = true) ->
  validate_row columns (PDict row) = true.
Proof.
  intros Hnd Hrow. simpl. apply validate_columns_true_iff.
  intros c cd v Hin Hget. apply hint_allows_conforms.
  apply (Hrow c); [|assumption].
  rewrite (schema_obj_of_spec columns Hnd []) by (intros c' _ []).
  simpl. apply In_get_Some.
  - unfold Dict.keys. rewrite map_map. exact Hnd.
  - apply in_map_iff. exists (c, cd). auto.
Qed.

Lemma row_following_the_instruction_is_accepted_witness :
  validate_row Cases.mixed_columns
    (PDict [("id", PInt 7); ("score", PInt 3); ("ok", PBool false);
            ("born", PStr "2001-02-03"); ("tags", PStr "[]")]) = true.
Proof.
  apply (row_following_the_instruction_is_accepted Cases.mixed_columns).
  - repeat constructor; simpl; intuition discriminate.
  - intros c hint v Hh Hv. apply get_Some_In in Hv. simpl in Hv.
    repeat match type of Hv with
           | _ \/ _ => destruct Hv as [Hv|Hv]
           end;
      try contradiction; injection Hv as <- <-;
      vm_compute in Hh; injection Hh as <-; reflexivity.
Defined.

(** ** The converter on values *)

(** The converter stores a value that already has the runtime type of its
    column as it is: an integer in an integer column, a float in a float
    column, a boolean in a boolean column, a string in any other column. *)
Theorem convert_keeps_typed_values (rt : runtime)
    (columns : Dict.t column_def) (row out : Dict.t pyval)
    (c : string) (cd : column_def) (v : pyval) :
  NoDup (Dict.keys columns) ->
  convert_row rt columns (Dict.keys columns) (PDict row) = Ok out ->
  In (c, cd) columns ->
  Dict.get c row = Some v ->
  has_declared_type (lower (type_name cd)) v ->
  Dict.get c out = Some v.
Proof.
  intros Hnd Hout Hin Hget Hty.
  assert (Hc : In c (Dict.keys columns)).
  { apply in_map_iff. exists (c, cd). auto. }
  destruct (convert_row_get rt columns row _ out c Hnd Hout Hc)
    as (v' & Hcol & Hget').
  unfold convert_column in Hcol. rewrite Hget in Hcol.
  rewrite (typed_not_None _ _ Hty) in Hcol.
  rewrite (In_get_Some c cd columns Hnd Hin) in Hcol.
  destruct (typed_conforms_and_fixed rt _ _ Hty) as [_ Hfix].
  congruence.
Qed.

Lemma convert_keeps_typed_values_witness :
  Dict.get "name" [("id", PInt 1); ("name", PStr " Ann ")]
  = Some (PStr " Ann ").
Proof.
  apply (convert_keeps_typed_values Demo.rt Demo.people
           [("name", PStr " Ann "); ("id", PInt 1)]
           [("id", PInt 1); ("name", PStr " Ann ")]
           "name" {| type_name := "text" |} (PStr " Ann ")).
  - repeat constructor; simpl; intuition discriminate.
  - reflexivity.
  - right. now left.
  - reflexivity.
  - exists " Ann ". reflexivity.
Defined.

Lemma validated_row_converts_witness :
  exists out,
    convert_row Demo.rt Demo.a_float (Dict.keys Demo.a_float)
      (PDict [("a", PInt 2)]) = Ok out
    /\ (forall c cd v, In (c, cd) Demo.a_float -> Dict.get c out = Some v ->
          v = PNone \/ has_declared_type (lower (type_name cd)) v).
Proof.
  apply (validated_row_converts Demo.rt Demo.a_float [("a", PInt 2)]).
  - repeat constructor; simpl; intuition discriminate.
  - reflexivity.
  - intros c cd z [E|[]] _ Hget. injection E as <- <-.
    injection Hget as <-. eexists. vm_compute. reflexivity.
Defined.

Lemma conforming_value_raises_overflow (rt : runtime) (pg_type : string)
    (value : pyval) (e : exn) :
  value_conforms pg_type value = true ->
  convert_value rt pg_type value = Raise e -> e = OverflowError.
Proof.
  unfold value_conforms, convert_value.
  destruct (str_in pg_type integer_types).
  { destruct value; try discriminate; simpl; discriminate. }
  destruct (str_in pg_type float_types).
  { intros Hc H. destruct value as [| b | z | f | | |]; try discriminate Hc;
      simpl in H.
    - destruct b; vm_compute in H; discriminate H.
    - unfold float_of_int in H.
      destruct (binary_normalize 53 1024 z 0 false); simpl in H;
        try discriminate H. now injection H as <-.
    - discriminate H. }
  destruct (str_in pg_type boolean_types); discriminate.
Qed.

Lemma convert_columns_raises (rt : runtime) (columns : Dict.t column_def)
    (row : Dict.t pyval) (P : exn -> Prop) (names : list string) :
  (forall c e, In c names ->
               convert_column rt columns row c = Raise e -> P e) ->
  forall acc e,
  convert_columns rt columns names (PDict row) acc = Raise e -> P e.
Proof.
  induction names as [|c names IH]; intros Hcol acc e; [discriminate|].
  rewrite convert_columns_step.
  destruct (convert_column rt columns row c) as [v|e'] eqn:Hc; simpl.
  - apply IH. intros c' e' Hin. apply Hcol. now right.
  - intros [= <-]. apply (Hcol c); [now left | assumption].
Qed.

(** The one exception the conversion of a validated row can raise is
    [OverflowError]. *)
Theorem validated_row_raises_only_overflow (rt : runtime)
    (columns : Dict.t column_def) (row_data : pyval) (e : exn) :
  validate_row columns row_data = true ->
  convert_row rt columns (Dict.keys columns) row_data = Raise e ->
  e = OverflowError.
Proof.
  intros Hval. destruct (validate_row_dict _ _ Hval) as (row & -> & Hcols).
  rewrite validate_columns_true_iff in Hcols.
  unfold convert_row.
  apply (convert_columns_raises rt columns row (fun e => e = OverflowError)).
  intros c e' Hin. unfold convert_column.
  destruct (Dict.get c row) as [value|] eqn:Hget; [|discriminate].
  destruct (is_None value); [discriminate|].
  destruct (Dict.get c columns) as [cd|] eqn:Hcd.
  - apply conforming_value_raises_overflow.
    apply (Hcols c cd value); [now apply get_Some_In | assumption].
  - apply get_None_iff in Hcd. contradiction.
Qed.

Lemma validated_row_raises_only_overflow_witness :
  OverflowError = OverflowError.
Proof.
  apply (validated_row_raises_only_overflow Demo.rt Demo.a_float
           (PDict [("a", PInt (10 ^ 400))]) OverflowError).
  - reflexivity.
  - vm_compute. reflexivity.
Defined.

(** ** The loop of [execute] *)

Section Loop.

Variable rt : runtime.

Lemma emit_rows_step (row_data : pyval) (rest : list pyval) (wd : world) :
  emit_rows rt (row_data :: rest) wd =
  if validate_row (columns (self wd)) row_data then
    match convert_row rt (columns (self wd)) (column_names (self wd))
            row_data with
    | Ok out =>
        emit_rows rt rest {| self := self wd;
                             sink := sink wd;
                             yielded := yielded wd ++ [out] |}
    | Raise e => (Raise e, wd)
    end
  else
    emit_rows rt rest {| self := self wd;
                         sink := sink wd ++ [skip_event row_data];
                         yielded := yielded wd |}.
Proof.
  cbn [emit_rows].
  unfold _validate_row_schema, _convert_row_to_postgres_format.
  unfold bind, attr, ret, lift, yield, log_to_postgres, skip_event.
  cbn [self fst snd].
  destruct (validate_row (columns (self wd)) row_data); [|reflexivity].
  destruct (convert_row rt (columns (self wd)) (column_names (self wd))
              row_data); reflexivity.
Qed.

Lemma world_eta (wd : world) :
  wd = {| self := self wd; sink := sink wd ++ []; yielded := yielded wd ++ [] |}.
Proof. destruct wd; simpl. now rewrite !app_nil_r. Qed.

(** When every valid row converts, the loop ends normally, has yielded the
    conversions of the valid rows in their order and has logged one
    warning for each invalid row, in their order. *)
Lemma emit_rows_all_convert (rows : list pyval) :
  forall (wd : world) (outs : list (Dict.t pyval)),
  Forall2 (fun r out =>
             convert_row rt (columns (self wd)) (column_names (self wd)) r
             = Ok out)
    (filter (validate_row (columns (self wd))) rows) outs ->
  emit_rows rt rows wd
  = (Ok tt,
     {| self := self wd;
        sink := sink wd
                ++ map skip_event
                     (filter (fun r => negb (validate_row (columns (self wd)) r))
                        rows);
        yielded := yielded wd ++ outs |}).
Proof.
  induction rows as [|r rows IH]; intros wd outs HF.
  - simpl in HF. inversion HF; subst. simpl. unfold ret. f_equal.
    apply world_eta.
  - rewrite emit_rows_step. simpl in HF |- *.
    destruct (validate_row (columns (self wd)) r); simpl.
    + inversion HF as [|? out ? outs' Hout HF']; subst. rewrite Hout.
      rewrite (IH _ outs') by exact HF'. cbn [self sink yielded].
      now rewrite <- app_assoc.
    + rewrite (IH _ outs) by exact HF. cbn [self sink yielded].
      now rewrite <- app_assoc.
Qed.

(** When the conversion of a valid row raises, the loop stops there: the
    rows before it have been yielded and are not taken back. *)
Lemma emit_rows_stops_at_failure (pre : list pyval) :
  forall (row_data : pyval) (post : list pyval) (wd : world)
         (outs : list (Dict.t pyval)) (e : exn),
  Forall2 (fun r out =>
             convert_row rt (columns (self wd)) (column_names (self wd)) r
             = Ok out)
    (filter (validate_row (columns (self wd))) pre) outs ->
  validate_row (columns (self wd)) row_data = true ->
  convert_row rt (columns (self wd)) (column_names (self wd)) row_data
  = Raise e ->
  emit_rows rt (pre ++ row_data :: post) wd
  = (Raise e,
     {| self := self wd;
        sink := sink wd
                ++ map skip_event
                     (filter (fun r => negb (validate_row (columns (self wd)) r))
                        pre);
        yielded := yielded wd ++ outs |}).
Proof.
  induction pre as [|r pre IH]; intros row_data post wd outs e HF Hv Hc.
  - simpl in HF. inversion HF; subst. simpl app.
    rewrite emit_rows_step, Hv, Hc. simpl. f_equal. apply world_eta.
  - simpl app. rewrite emit_rows_step. simpl in HF |- *.
    destruct (validate_row (columns (self wd)) r); simpl.
    + inversion HF as [|? out ? outs' Hout HF']; subst. rewrite Hout.
      rewrite (IH row_data post _ outs' e) by assumption.
      cbn [self sink yielded]. now rewrite <- app_assoc.
    + rewrite (IH row_data post _ outs e) by assumption.
      cbn [self sink yielded]. now rewrite <- app_assoc.
Qed.

Lemma emit_rows_raises_only_overflow (rows : list pyval) :
  forall (wd : world) (e : exn),
  column_names (self wd) = Dict.keys (columns (self wd)) ->
  fst (emit_rows rt rows wd) = Raise e -> e = OverflowError.
Proof.
  induction rows as [|r rows IH]; intros wd e Hwf; [discriminate|].
  rewrite emit_rows_step.
  destruct (validate_row (columns (self wd)) r) eqn:Hv.
  - destruct (convert_row rt (columns (self wd)) (column_names (self wd)) r)
      as [out|e'] eqn:Hc.
    + apply IH. exact Hwf.
    + simpl. intros [= <-]. rewrite Hwf in Hc.
      eapply validated_row_raises_only_overflow; eassumption.
  - apply IH. exact Hwf.
Qed.

Lemma emit_rows_yielded_keys (rows : list pyval) :
  forall (wd : world) (names : list string),
  column_names (self wd) = names ->
  NoDup names ->
  Forall (fun out => Dict.keys out = names) (yielded wd) ->
  Forall (fun out => Dict.keys out = names)
    (yielded (snd (emit_rows rt rows wd))).
Proof.
  induction rows as [|r rows IH]; intros wd names Hn Hnd Hall;
    [exact Hall|].
  rewrite emit_rows_step.
  destruct (validate_row (columns (self wd)) r) eqn:Hv.
  - destruct (convert_row rt (columns (self wd)) (column_names (self wd)) r)
      as [out|e'] eqn:Hc; [|exact Hall].
    apply IH; [exact Hn | exact Hnd |]. cbn [yielded].
    apply Forall_app. split; [exact Hall|]. constructor; [|constructor].
    destruct (validate_row_dict _ _ Hv) as (row & -> & _).
    rewrite Hn in Hc. eapply convert_row_keys; eassumption.
  - apply IH; [exact Hn | exact Hnd | exact Hall].
Qed.

(** [execute] in terms of what the request returned. *)
Lemma execute_unfold (quals : list pyval) (cols : list string) (wd : world) :
  execute rt quals cols wd =
  match _make_openai_request rt
          (render_instruction rt (schema_obj_of (columns (self wd)) [])
             (max_rows (self wd))) wd with
  | (Ok (Some (r :: rest)), wd') =>
      match emit_rows rt (r :: rest) wd' with
      | (Ok a, wd'') => (Ok a, wd'')
      | (Raise e, wd'') =>
          (Raise e, {| self := self wd'';
                       sink := sink wd'' ++ [(MsgExecutionError e, ERROR)];
                       yielded := yielded wd'' |})
      end
  | (Ok _, wd') =>
      (Ok tt, {| self := self wd';
                 sink := sink wd' ++ [(MsgNoData, WARNING)];
                 yielded := yielded wd' |})
  | (Raise e, wd') =>
      (Raise e, {| self := self wd';
                   sink := sink wd' ++ [(MsgExecutionError e, ERROR)];
                   yielded := yielded wd' |})
  end.
Proof.
  unfold execute, try_except, _generate_schema_info.
  unfold bind, attr, ret. cbn [self fst snd].
  destruct (_make_openai_request rt _ wd) as [[[[|r rest]|]|e] wd'];
    reflexivity.
Qed.

End Loop.

(** ** [execute] *)

(** Whenever [execute] raises, the last event in the sink is the ERROR
    event of that exception: nothing is raised to the caller unreported. *)
Theorem execute_reports_what_it_raises (rt : runtime) (quals : list pyval)
    (cols : list string) (wd : world) (e : exn) :
  fst (execute rt quals cols wd) = Raise e ->
  exists events,
    sink (snd (execute rt quals cols wd))
    = events ++ [(MsgExecutionError e, ERROR)].
Proof.
  rewrite execute_unfold.
  destruct (_make_openai_request rt _ wd) as [[[[|r rest]|]|e'] wd'];
    try discriminate.
  - destruct (emit_rows rt (r :: rest) wd') as [[a|e'] wd''];
      [discriminate|].
    simpl. intros [= <-]. eauto.
  - simpl. intros [= <-]. eauto.
Qed.

Lemma execute_reports_what_it_raises_witness :
  exists events,
    sink (snd (execute Cases.rt_big [] []
                 (Demo.fresh (Demo.wrapper_of Demo.a_float))))
    = events ++ [(MsgExecutionError OverflowError, ERROR)].
Proof.
  apply (execute_reports_what_it_raises Cases.rt_big [] []
           (Demo.fresh (Demo.wrapper_of Demo.a_float)) OverflowError).
  vm_compute. reflexivity.
Defined.

(** For a wrapper whose column names are the keys of its columns, as
    [__init__] sets them, the one exception [execute] can raise is
    [OverflowError]: every failure of the transport, of the envelope or of
    the JSON text ends in a normal return. *)
Theorem execute_raises_only_overflow (rt : runtime) (w : wrapper)
    (quals : list pyval) (cols : list string) (e : exn) :
  column_names w = Dict.keys (columns w) ->
  fst (run_execute rt w quals cols) = Raise e ->
  e = OverflowError.
Proof.
  intros Hwf. unfold run_execute. rewrite execute_unfold.
  set (wd := {| self := w; sink := []; yielded := [] |}).
  set (info := render_instruction rt _ _).
  pose proof (preserves_make_openai_request rt info wd) as Hself.
  destruct (make_openai_request_never_raises rt info wd) as [[r Hr] _].
  destruct (_make_openai_request rt info wd) as [[o|e'] wd'];
    [|discriminate Hr].
  simpl in Hself.
  destruct o as [[|r0 rest]|]; try discriminate.
  destruct (emit_rows rt (r0 :: rest) wd') as [[a|e'] wd''] eqn:Hemit;
    [discriminate|].
  simpl. intros [= <-].
  apply (emit_rows_raises_only_overflow rt (r0 :: rest) wd').
  - now rewrite Hself.
  - now rewrite Hemit.
Qed.

Lemma execute_raises_only_overflow_witness :
  OverflowError = OverflowError.
Proof.
  apply (execute_raises_only_overflow Cases.rt_big
           (Demo.wrapper_of Demo.a_float) [] [] OverflowError).
  - reflexivity.
  - vm_compute. reflexivity.
Defined.

(** Every row [execute] yields has exactly the column names as its keys,
    in their order, also when a later row makes it raise. *)
Theorem execute_yields_rows_of_schema_shape (rt : runtime) (w : wrapper)
    (quals : list pyval) (cols : list string) :
  NoDup (column_names w) ->
  Forall (fun out => Dict.keys out = column_names w)
    (yielded (snd (run_execute rt w quals cols))).
Proof.
  intros Hnd. unfold run_execute. rewrite execute_unfold.
  set (wd := {| self := w; sink := []; yielded := [] |}).
  set (info := render_instruction rt _ _).
  pose proof (preserves_make_openai_request rt info wd) as Hself.
  destruct (make_openai_request_never_raises rt info wd) as [_ Hy].
  destruct (_make_openai_request rt info wd) as [[o|e'] wd'];
    simpl in Hself, Hy.
  - assert (Hemit : forall rows,
               Forall (fun out => Dict.keys out = column_names w)
                 (yielded (snd (emit_rows rt rows wd')))).
    { intros rows.
      apply emit_rows_yielded_keys; [now rewrite Hself | assumption|].
      rewrite Hy. constructor. }
    destruct o as [[|r0 rest]|]; cbn [snd yielded];
      try (rewrite Hy; constructor).
    specialize (Hemit (r0 :: rest)).
    destruct (emit_rows rt (r0 :: rest) wd') as [[a|e'] wd'']; exact Hemit.
  - simpl. rewrite Hy. constructor.
Qed.

Lemma execute_yields_rows_of_schema_shape_witness :
  Forall (fun out => Dict.keys out = ["a"])
    (yielded (snd (run_execute Cases.rt_big (Demo.wrapper_of Demo.a_float)
                     [] []))).
Proof.
  apply (execute_yields_rows_of_schema_shape Cases.rt_big
           (Demo.wrapper_of Demo.a_float) [] []).
  repeat constructor; simpl; intuition.
Defined.

(** When the transport answers with an envelope whose completion text
    parses to an array and every valid element converts, [execute] returns
    normally, the rows it has yielded are the conversions of the valid
    elements in array order, and each invalid element has its warning in
    the sink: an invalid row is skipped and the batch goes on. *)
Theorem execute_yields_valid_rows_in_order (rt : runtime) (w : wrapper)
    (quals : list pyval) (cols : list string) (res : pyval) (s : string)
    (rows : list pyval) (outs : list (Dict.t pyval)) :
  requests_post rt (request_of rt w) = Envelope res ->
  completion_text res = Ok s ->
  json_loads rt (strip_code_fence s) = Ok (PList rows) ->
  Forall2 (fun r out => convert_row rt (columns w) (column_names w) r = Ok out)
    (filter (validate_row (columns w)) rows) outs ->
  fst (run_execute rt w quals cols) = Ok tt
  /\ yielded (snd (run_execute rt w quals cols)) = outs
  /\ (forall r, In r rows -> validate_row (columns w) r = false ->
        In (skip_event r) (sink (snd (run_execute rt w quals cols)))).
Proof.
  intros Hpost Hs Hj HF. unfold run_execute. rewrite execute_unfold.
  set (wd := {| self := w; sink := []; yielded := [] |}).
  set (info := render_instruction rt _ _).
  assert (Hrows : fst (_make_openai_request rt info wd) = Ok (Some rows)).
  { apply make_openai_request_returns_rows_iff. exists res, s. auto. }
  pose proof (preserves_make_openai_request rt info wd) as Hself.
  destruct (make_openai_request_never_raises rt info wd) as [_ Hy].
  destruct (_make_openai_request rt info wd) as [[o|e'] wd'];
    simpl in Hself, Hy, Hrows; [|discriminate Hrows].
  injection Hrows as ->.
  destruct rows as [|r0 rest].
  - simpl in HF. inversion HF; subst. cbn. repeat split; auto.
    intros r [].
  - rewrite (emit_rows_all_convert rt (r0 :: rest) wd' outs)
      by (rewrite Hself; exact HF).
    cbn [fst snd yielded sink]. rewrite Hy, Hself.
    split; [reflexivity | split; [reflexivity|]].
    intros r Hin Hv. apply in_or_app. right. apply in_map.
    apply filter_In. split; [assumption | now rewrite Hv].
Qed.

Lemma execute_yields_valid_rows_in_order_witness :
  let rt := Demo.rt_answering (fenced "json" Demo.scenario_A_text)
              Demo.scenario_A_text Demo.scenario_A_rows in
  let w := Demo.wrapper_of Demo.people in
  fst (run_execute rt w [] []) = Ok tt
  /\ yielded (snd (run_execute rt w [] []))
     = [[("id", PInt 1); ("name", PStr "Ann")]]
  /\ (forall r, In r Demo.scenario_A_rows ->
        validate_row Demo.people r = false ->
        In (skip_event r) (sink (snd (run_execute rt w [] [])))).
Proof.
  intros rt w.
  apply (execute_yields_valid_rows_in_order rt w [] []
           (Demo.envelope_of (fenced "json" Demo.scenario_A_text))
           (strip (fenced "json" Demo.scenario_A_text))
           Demo.scenario_A_rows).
  - reflexivity.
  - reflexivity.
  - reflexivity.
  - repeat constructor.
Defined.

(** When the conversion of a valid element raises, [execute] raises that
    exception, and the rows converted before it have already been yielded:
    the caller keeps them. *)
Theorem execute_keeps_rows_before_failure (rt : runtime) (w : wrapper)
    (quals : list pyval) (cols : list string) (res : pyval) (s : string)
    (pre post : list pyval) (row_data : pyval)
    (outs : list (Dict.t pyval)) (e : exn) :
  requests_post rt (request_of rt w) = Envelope res ->
  completion_text res = Ok s ->
  json_loads rt (strip_code_fence s) = Ok (PList (pre ++ row_data :: post)) ->
  Forall2 (fun r out => convert_row rt (columns w) (column_names w) r = Ok out)
    (filter (validate_row (columns w)) pre) outs ->
  validate_row (columns w) row_data = true ->
  convert_row rt (columns w) (column_names w) row_data = Raise e ->
  fst (run_execute rt w quals cols) = Raise e
  /\ yielded (snd (run_execute rt w quals cols)) = outs.
Proof.
  intros Hpost Hs Hj HF Hv Hc. unfold run_execute. rewrite execute_unfold.
  set (wd := {| self := w; sink := []; yielded := [] |}).
  set (info := render_instruction rt _ _).
  assert (Hrows : fst (_make_openai_request rt info wd)
                  = Ok (Some (pre ++ row_data :: post))).
  { apply make_openai_request_returns_rows_iff. exists res, s. auto. }
  pose proof (preserves_make_openai_request rt info wd) as Hself.
  destruct (make_openai_request_never_raises rt info wd) as [_ Hy].
  destruct (_make_openai_request rt info wd) as [[o|e'] wd'];
    simpl in Hself, Hy, Hrows; [|discriminate Hrows].
  injection Hrows as ->.
  destruct (pre ++ row_data :: post) as [|r0 rest] eqn:Hsplit.
  - exfalso. symmetry in Hsplit. eapply app_cons_not_nil. exact Hsplit.
  - rewrite <- Hsplit.
    rewrite (emit_rows_stops_at_failure rt pre row_data post wd' outs e)
      by (rewrite Hself; assumption).
    cbn [fst snd yielded]. now rewrite Hy.
Qed.

Lemma execute_keeps_rows_before_failure_witness :
  fst (run_execute Cases.rt_big (Demo.wrapper_of Demo.a_float) [] [])
  = Raise OverflowError
  /\ yielded (snd (run_execute Cases.rt_big (Demo.wrapper_of Demo.a_float)
                     [] []))
     = [[("a", PFloat Demo.three_and_a_half)]].
Proof.
  apply (execute_keeps_rows_before_failure Cases.rt_big
           (Demo.wrapper_of Demo.a_float) [] []
           (Demo.envelope_of "[rows]") "[rows]"
           [PDict [("a", PFloat Demo.three_and_a_half)];
            PDict [("a", PStr "n/a")]]
           [PDict [("a", PInt 2)]]
           (PDict [("a", PInt (10 ^ 400))])).
  - reflexivity.
  - reflexivity.
  - reflexivity.
  - repeat constructor.
  - reflexivity.
  - vm_compute. reflexivity.
Defined.

(** ** [explain] *)

Lemma length_take (n : nat) (s : string) : String.length (take n s) <= n.
Proof.
  revert s. induction n as [|n IH]; intros [|c s]; simpl; try lia.
  specialize (IH s). lia.
Qed.

Lemma take_all (n : nat) (s : string) :
  String.length s <= n -> take n s = s.
Proof.
  revert s. induction n as [|n IH]; intros [|c s]; simpl; try reflexivity;
    try lia.
  intros H. rewrite IH; [reflexivity | lia].
Qed.

(** [explain] raises [TypeError] on a wrapper without prompt; otherwise
    it returns four lines, of which the second begins with the first 100
    characters of the prompt after its label, is at most 111 characters
    long, and is the whole prompt when that has at most 100 characters.
    In both cases the state is left as it was. *)
Theorem explain_plan (quals : list pyval) (cols : list string)
    (wd : world) :
  snd (explain quals cols wd) = wd
  /\ match prompt (self wd) with
     | None => fst (explain quals cols wd) = Raise TypeError
     | Some p =>
         exists line_model line_prompt line_columns line_rows,
           fst (explain quals cols wd)
           = Ok [line_model; line_prompt; line_columns; line_rows]
           /\ String.length line_prompt <= 111
           /\ startswith ("Prompt: " ++ take 100 p) line_prompt = true
           /\ (String.length p <= 100 ->
               line_prompt = ("Prompt: " ++ p)%string)
     end.
Proof.
  unfold explain, bind, attr, lift, ret. cbn [self fst snd].
  destruct (prompt (self wd)) as [p|];
    cbn [len_of_option str_of_option fst snd]; [|auto].
  split; [reflexivity|].
  eexists _, _, _, _. split; [reflexivity|].
  destruct (Nat.ltb_spec 100 (String.length p)) as [Hlong|Hshort].
  - repeat split.
    + rewrite !length_append. pose proof (length_take 100 p).
      change (String.length "Prompt: ") with 8.
      change (String.length "...") with 3. lia.
    + unfold startswith. rewrite <- append_assoc. apply prefix_append.
    + intros H. lia.
  - repeat split.
    + rewrite length_append. change (String.length "Prompt: ") with 8. lia.
    + unfold startswith. rewrite take_all by assumption. apply prefix_refl.
Qed.

(** ** What an accepted row holds, and nulls *)

Ltac enumerate_type H :=
  unfold str_in in H; simpl in H; rewrite ?orb_true_iff in H;
  repeat match type of H with
         | _ \/ _ => destruct H as [H|H]
         end;
  try discriminate H; apply String.eqb_eq in H; subst.

Lemma float_type_check (pg_type : string) (v : pyval) :
  str_in pg_type float_types = true ->
  value_conforms pg_type v = isinstance_int_float v.
Proof. intros H. enumerate_type H; reflexivity. Qed.

Lemma boolean_type_check (pg_type : string) (v : pyval) :
  str_in pg_type boolean_types = true ->
  value_conforms pg_type v = isinstance_bool v.
Proof. intros H. enumerate_type H; reflexivity. Qed.

(** In an accepted row a declared column that is present holds: an int or
    a boolean when declared with an integer type; an int, a boolean or a
    float when declared with a float type; a boolean when declared
    boolean; a string when declared with a text, date or timestamp type.
    In particular it is never null, an array or an object there. *)
Theorem accepted_row_value_types (columns : Dict.t column_def)
    (row : Dict.t pyval) (c : string) (cd : column_def) (v : pyval) :
  validate_row columns (PDict row) = true ->
  In (c, cd) columns ->
  Dict.get c row = Some v ->
  (str_in (lower (type_name cd)) integer_types = true ->
   (exists z, v = PInt z) \/ (exists b, v = PBool b))
  /\ (str_in (lower (type_name cd)) float_types = true ->
      (exists z, v = PInt z) \/ (exists b, v = PBool b)
      \/ (exists f, v = PFloat f))
  /\ (str_in (lower (type_name cd)) boolean_types = true ->
      exists b, v = PBool b)
  /\ (str_in (lower (type_name cd)) text_types = true ->
      exists s, v = PStr s).
Proof.
  intros Hval Hin Hget. simpl in Hval.
  rewrite validate_columns_true_iff in Hval.
  specialize (Hval c cd v Hin Hget).
  repeat split; intros Hty.
  - rewrite integer_type_check in Hval by assumption.
    destruct v; try discriminate; eauto.
  - rewrite float_type_check in Hval by assumption.
    destruct v; try discriminate; eauto.
  - rewrite boolean_type_check in Hval by assumption.
    destruct v; try discriminate; eauto.
  - rewrite text_type_check in Hval by assumption.
    destruct v; try discriminate; eauto.
Qed.

Lemma accepted_row_value_types_witness :
  exists s, PStr "2001-02-03" = PStr s.
Proof.
  apply (proj2 (proj2 (proj2
    (accepted_row_value_types Cases.mixed_columns
       [("id", PBool true); ("born", PStr "2001-02-03")]
       "born" {| type_name := "date" |} (PStr "2001-02-03")
       eq_refl (or_intror (or_intror (or_intror (or_introl eq_refl))))
       eq_refl)))).
  reflexivity.
Defined.

Lemma convert_columns_null (rt : runtime) (columns : Dict.t column_def)
    (row : Dict.t pyval) (c : string) (names : list string) :
  Dict.get c row = Some PNone ->
  forall acc out,
  In c names \/ Dict.get c acc = Some PNone ->
  convert_columns rt columns names (PDict row) acc = Ok out ->
  Dict.get c out = Some PNone.
Proof.
  intros Hnull. induction names as [|n names IH]; intros acc out Hc.
  - simpl. intros [= <-]. destruct Hc as [[]|Hc]. exact Hc.
  - rewrite convert_columns_step.
    destruct (convert_column rt columns row n) as [v|e] eqn:Hn;
      simpl; [|discriminate].
    apply IH. destruct (String.eqb_spec c n) as [->|Hne].
    + right. unfold convert_column in Hn. rewrite Hnull in Hn.
      injection Hn as <-. apply get_set_same.
    + destruct Hc as [[E|Hin]|Hacc].
      * congruence.
      * now left.
      * right. now rewrite get_set_other.
Qed.

(** The converter stores null for a column that is present with null,
    whatever the declared type of the column, and does so without looking
    the type up. *)
Theorem convert_present_null_is_null (rt : runtime)
    (columns : Dict.t column_def) (names : list string)
    (row out : Dict.t pyval) (c : string) :
  In c names ->
  Dict.get c row = Some PNone ->
  convert_row rt columns names (PDict row) = Ok out ->
  Dict.get c out = Some PNone.
Proof.
  intros Hin Hnull Hout.
  apply (convert_columns_null rt columns row c names Hnull [] out);
    [now left | exact Hout].
Qed.

Lemma convert_present_null_is_null_witness :
  Dict.get "tags" [("id", PInt 4); ("score", PNone); ("ok", PNone);
                   ("born", PNone); ("seen", PNone); ("tags", PNone)]
  = Some PNone.
Proof.
  apply (convert_present_null_is_null Demo.rt Cases.mixed_columns
           (Dict.keys Cases.mixed_columns)
           [("tags", PNone); ("id", PInt 4)]).
  - simpl. auto 7.
  - reflexivity.
  - reflexivity.
Defined.

Lemma explain_plan_witness :
  exists line_model line_prompt line_columns line_rows,
    fst (explain [] [] (Demo.fresh (Demo.wrapper_of Demo.people)))
    = Ok [line_model; line_prompt; line_columns; line_rows]
    /\ String.length line_prompt <= 111
    /\ startswith ("Prompt: " ++ take 100 "List two people") line_prompt
       = true
    /\ (String.length "List two people" <= 100 ->
        line_prompt = ("Prompt: " ++ "List two people")%string).
Proof.
  exact (proj2 (explain_plan [] []
                  (Demo.fresh (Demo.wrapper_of Demo.people)))).
Defined.
